(** * runtime/manager.go: state snapshots, change detection, dependency diff

    A shallow embedding of the [runtime] package's [Manager] and the
    properties of its change detector and dependency differ.

    Conventions of the model.
    - Paths are Go strings.  [filepath_Join] is [filepath.Join] in full,
      with the cleaning of its result.  The manager and the walk are
      written with [Join], concatenation around one separator: on a
      clean directory path of names proper and a name proper the two
      agree ([Join_plain]); on a root such as [.] or one that ends in a
      separator they do not, and a property that depends on which
      directory the root is takes a plain root.
    - The build target is not Windows ([runtime.GOOS] selects the default
      branch of [isHidden]).
    - A disk is the directory tree that [filepath.Walk] enumerates at the
      manager's root, together with the contents that [os.Open] finds at
      each absolute path.  [os.Lstat] does not fail on the root or on an
      entry that the directory listing has just returned.  (Where it
      does, [Walk] calls its function with a nil [FileInfo] and the
      error; the literals of [GetRuntime] and [storeState] call
      [info.IsDir()] on it and the call panics.  The disks of the model
      have no such entry: what is proved of these two is proved of the
      calls that return.)
    - Library functions the package calls ([sha256.Sum256], [json.Marshal],
      [json.Unmarshal]) and the helpers of the package that live in its
      other file ([stateMapFromBytes], [progInfoFromBytes]) are fields of
      the class [Platform]. *)

From Stdlib Require Import Strings.String Strings.Ascii Strings.Byte.
From Stdlib Require Import List Bool Arith Lia.
From stdpp Require Import base option list strings gmap.

Import ListNotations.
Local Open Scope string_scope.
Local Open Scope list_scope.

(** ** Go strings *)

Module GoStrings.

(** [strings.HasPrefix s prefix]. *)
Definition HasPrefix (s pre : string) : bool := String.prefix pre s.

Definition is_sep (c : ascii) : bool := Ascii.eqb c "/".

(** [filepath.Split]: the path cut after its last separator. *)
Fixpoint Split (path : string) : string * string :=
  match path with
  | EmptyString => (EmptyString, EmptyString)
  | String c rest =>
      match Split rest with
      | (EmptyString, file) =>
          if is_sep c then (String c EmptyString, file)
          else (EmptyString, String c file)
      | (dir, file) => (String c dir, file)
      end
  end.

(** [filepath.Join dir name] where it has nothing to clean: on a clean
    directory path and a name proper it is concatenation around one
    separator.  The function in full is [filepath_Join] below. *)
Definition Join (dir name : string) : string := dir ++ "/" ++ name.

(** [strings.Split s sep] for a one-character separator: the fields
    between the separators, one more than there are separators. *)
Fixpoint SplitOn (sep : ascii) (s : string) : list string :=
  match s with
  | EmptyString => [EmptyString]
  | String c rest =>
      if Ascii.eqb c sep then EmptyString :: SplitOn sep rest
      else match SplitOn sep rest with
           | [] => [String c EmptyString]
           | f :: fs => String c f :: fs
           end
  end.

(** One name of a path that [filepath.Clean] goes through; [out] holds
    the names kept so far, the last one first.  An empty name and [.]
    are dropped; [..] takes away the name before it, is dropped at the
    root, and is kept where a relative path has nothing to take
    away. *)
Definition clean_step (rooted : bool) (out : list string) (name : string)
    : list string :=
  if String.eqb name "" || String.eqb name "." then out
  else if String.eqb name ".." then
    match out with
    | [] => if rooted then [] else [".."]
    | top :: rest => if String.eqb top ".." then ".." :: out else rest
    end
  else name :: out.

(** [filepath.Clean]: the shortest path of the same names. *)
Definition Clean (path : string) : string :=
  let rooted := HasPrefix path "/" in
  let names := rev (fold_left (clean_step rooted) (SplitOn "/" path) []) in
  if rooted then ("/" ++ String.concat "/" names)%string
  else match names with
       | [] => "."
       | _ => String.concat "/" names
       end.

(** [filepath.Join] of two elements: from the first one that is not
    empty on, they are joined by a separator and cleaned. *)
Definition filepath_Join (dir name : string) : string :=
  if negb (String.eqb dir "") then Clean (dir ++ "/" ++ name)
  else if negb (String.eqb name "") then Clean name
  else "".

(** No separator occurs in the string: it is a file name. *)
Fixpoint sep_free (s : string) : bool :=
  match s with
  | EmptyString => true
  | String c rest => negb (is_sep c) && sep_free rest
  end.

Definition hex_digit (n : nat) : ascii :=
  match n with
  | 0 => "0" | 1 => "1" | 2 => "2" | 3 => "3" | 4 => "4"
  | 5 => "5" | 6 => "6" | 7 => "7" | 8 => "8" | 9 => "9"
  | 10 => "a" | 11 => "b" | 12 => "c" | 13 => "d" | 14 => "e"
  | _ => "f"
  end%char.

(** [fmt.Sprintf("%x", bs)] on a byte array: two lower-case digits a
    byte. *)
Fixpoint hex (bs : list byte) : string :=
  match bs with
  | [] => EmptyString
  | b :: bs' =>
      let n := Byte.to_nat b in
      String (hex_digit (n / 16)) (String (hex_digit (n mod 16)) (hex bs'))
  end.

(** [string(contents)]. *)
Definition string_of_bytes (bs : list byte) : string :=
  String.string_of_list_byte bs.

End GoStrings.
Export GoStrings.

(** ** Errors *)

(** The error values this package returns or tests for. *)
Inductive error : Type :=
| ErrNotExist                      (* os.ErrNotExist *)
| ErrPermission                    (* any other failure of the file system *)
| ErrSyntax                        (* a decoder rejected the bytes *)
| errorString (msg : string)       (* errors.New, fmt.Errorf *)
| SkipDir                          (* filepath.SkipDir *)
| Panic.                           (* not a returned value: the call panics *)

#[global] Instance error_eq_dec : EqDecision error.
Proof. solve_decision. Defined.

(** A Go result pair [(value, err)] with exactly one side set. *)
Inductive result (A : Type) : Type :=
| Ok (a : A)
| Err (e : error).
Arguments Ok {A} a.
Arguments Err {A} e.

(** ** The disk *)

(** What [filepath.Walk] sees: names, kinds, and whether a directory can
    be listed.  Children are in the order [Walk] visits them. *)
#[local] Set Warnings "-register-all".
Inductive node : Type :=
| File (name : string)
| Dir (name : string) (listable : bool) (children : list node).

Definition node_name (n : node) : string :=
  match n with File name => name | Dir name _ _ => name end.

(** [info.IsDir()]. *)
Definition IsDir (n : node) : bool :=
  match n with File _ => false | Dir _ _ _ => true end.

(** What [os.Open] followed by [ioutil.ReadAll] finds at a path that
    exists. *)
Inductive fstatus : Type :=
| Data (contents : list byte)
| Denied.

Record disk : Type := mkDisk {
  cwd : string;                   (* the process working directory *)
  tree : node;                    (* the directory tree at the root *)
  files : gmap string fstatus     (* contents, by absolute path *)
}.

(** A relative path is resolved against the working directory. *)
Definition abspath (d : disk) (path : string) : string :=
  if HasPrefix path "/" then path else Join (cwd d) path.

(** ** Operations on the disk: a state monad *)

Definition M (A : Type) : Type := disk -> A * disk.

Definition ret {A} (a : A) : M A := fun d => (a, d).
Definition bind {A B} (m : M A) (k : A -> M B) : M B :=
  fun d => let (a, d') := m d in k a d'.

Notation "x <- m ;; k" := (bind m (fun x => k))
  (at level 100, m at next level, right associativity).

(** [os.Open] and [ioutil.ReadAll].  The empty path names no file. *)
Definition os_read (path : string) : M (result (list byte)) :=
  fun d =>
    (if String.eqb path "" then Err ErrNotExist
     else match files d !! abspath d path with
          | None => Err ErrNotExist
          | Some Denied => Err ErrPermission
          | Some (Data b) => Ok b
          end, d).

(** [ioutil.WriteFile]: creates or truncates the file.  The directory
    it is written into exists ([NewManager] has made it). *)
Definition WriteFile (path : string) (data : list byte) : M (option error) :=
  fun d =>
    if String.eqb path "" then (Some ErrNotExist, d)
    else match files d !! abspath d path with
         | Some Denied => (Some ErrPermission, d)
         | _ => (None, mkDisk (cwd d) (tree d)
                              (<[abspath d path := Data data]> (files d)))
         end.

(** ** [filepath.Walk] *)

(** A [WalkFunc] closes over variables of the caller; [S] is their state.
    It is called with the path, [info.IsDir()], and the error of listing
    the directory. *)
Definition WalkFunc (S : Type) : Type :=
  S -> string -> bool -> option error -> M (S * option error).

(** The loop of [filepath.walk] over the entries of a directory, with
    the recursive call as [rec]: [SkipDir] from a directory skips that
    directory only, any other error stops the walk. *)
Definition walkEach {S : Type}
    (rec : string -> node -> S -> M (S * option error)) (path : string)
    : list node -> S -> M (S * option error) :=
  fix each (cs : list node) (s : S) {struct cs} : M (S * option error) :=
    match cs with
    | [] => ret (s, None)
    | c :: cs' =>
        r <- rec (Join path (node_name c)) c s ;;
        match snd r with
        | None => each cs' (fst r)
        | Some e =>
            if negb (IsDir c) || negb (bool_decide (e = SkipDir))
            then ret (fst r, Some e)
            else each cs' (fst r)
        end
    end.

(** [filepath.walk]: the function is called on the entry; a directory
    that listed and for which it returned no error is descended into. *)
Fixpoint walk {S : Type} (fn : WalkFunc S) (path : string) (n : node)
    (s : S) {struct n} : M (S * option error) :=
  match n with
  | File _ => fn s path false None
  | Dir _ listable children =>
      let err := if listable then None else Some ErrPermission in
      r <- fn s path true err ;;
      match err, snd r with
      | None, None => walkEach (walk fn) path children (fst r)
      | _, _ => ret r
      end
  end.

(** [filepath.Walk]: [SkipDir] at the root is not an error. *)
Definition Walk {S : Type} (root : string) (fn : WalkFunc S) (s : S)
    : M (S * option error) :=
  fun d =>
    let (r, d') := walk fn root (tree d) s d in
    match snd r with
    | Some SkipDir => ((fst r, None), d')
    | _ => (r, d')
    end.

(** ** Data of the package *)

Definition Python : string := "python".
Definition Node : string := "node".

(** [entryPoints]: entrypoint file name to runtime. *)
Definition entryPoints (filename : string) : option string :=
  if String.eqb filename "main.py" then Some Python
  else if String.eqb filename "index.js" then Some Node
  else None.

(** [depFiles]: runtime to manifest name; a missing key reads as the
    empty string. *)
Definition depFiles (runtime : string) : string :=
  if String.eqb runtime Python then "requirements.txt"
  else if String.eqb runtime Node then "package.json"
  else "".

Definition detaDir : string := ".deta".
Definition progInfoFile : string := "progInfo".
Definition stateFile : string := "state".

Record Manager : Type := mkManager {
  rootDir : string;
  detaPath : string;
  progInfoPath : string;
  statePath : string
}.

(** [stateMap]: path to checksum. *)
Abbreviation stateMap := (gmap string string).

(** [StateChanges] and [DepChanges] are declared in the package's other
    file; the fields are those this file assigns. *)
Record StateChanges : Type := mkStateChanges {
  Changes : gmap string (list byte);
  Deletions : list string
}.

(** Modelled from the spec: the [ProgInfo] record is declared in the
    package's other file; it holds the runtime and the dependency list
    that this file reads. *)
Record ProgInfo : Type := mkProgInfo {
  Runtime : string;
  Deps : list string
}.

Record DepChanges : Type := mkDepChanges {
  Added : list string;
  Removed : list string
}.

(** A JSON text, parsed. *)
Inductive json : Type :=
| JNull
| JBool (b : bool)
| JNumber (literal : string)
| JString (s : string)
| JArray (items : list json)
| JObject (members : list (string * json)).

(** The dynamic values found behind an [interface{}]. *)
Inductive iface : Type :=
| INil
| IBool (b : bool)
| IFloat64 (literal : string)
| IString (s : string)
| ISlice (items : list iface)
| IMapIface (members : list (string * iface))    (* map[string]interface{} *)
| IMapString (members : gmap string string).     (* map[string]string *)

(** What [json.Unmarshal] stores into an [interface{}]: an object becomes
    a [map[string]interface{}], whatever its members are. *)
Fixpoint to_iface (j : json) : iface :=
  match j with
  | JNull => INil
  | JBool b => IBool b
  | JNumber l => IFloat64 l
  | JString s => IString s
  | JArray items => ISlice (List.map to_iface items)
  | JObject members =>
      IMapIface (List.map (fun kv => (fst kv, to_iface (snd kv))) members)
  end.

(** [reflect.TypeOf(v).String()]; [TypeOf(nil)] is nil and has no
    [String]. *)
Definition type_string (v : iface) : option string :=
  match v with
  | INil => None
  | IBool _ => Some "bool"
  | IFloat64 _ => Some "float64"
  | IString _ => Some "string"
  | ISlice _ => Some "[]interface {}"
  | IMapIface _ => Some "map[string]interface {}"
  | IMapString _ => Some "map[string]string"
  end.

(** [m[key]] on a decoded object: of members with the same key the last
    one is kept. *)
Fixpoint member {A : Type} (key : string) (members : list (string * A))
    : option A :=
  match members with
  | [] => None
  | (k, v) :: rest =>
      match member key rest with
      | Some v' => Some v'
      | None => if String.eqb k key then Some v else None
      end
  end.

(** ** The platform *)

Class Platform : Type := {
  (** [sha256.Sum256]: a [[32]byte]. *)
  Sum256 : list byte -> list byte;
  Sum256_size : forall b, length (Sum256 b) = 32;
  (** [json.Marshal] of a [stateMap], and [stateMapFromBytes].
      Modelled from the spec: [stateMapFromBytes] is in the package's
      other file; it returns the snapshot that the bytes encode, or an
      error when they do not parse, and loads what was saved. *)
  marshalState : stateMap -> list byte;
  stateMapFromBytes : list byte -> result stateMap;
  stateMap_roundtrip : forall sm, stateMapFromBytes (marshalState sm) = Ok sm;
  (** [json.Marshal] of a [ProgInfo], and [progInfoFromBytes].
      Modelled from the spec: [progInfoFromBytes] is in the package's
      other file; it returns the record that the bytes encode, or no
      record and an error when they do not parse. *)
  marshalProgInfo : ProgInfo -> list byte;
  progInfoFromBytes : list byte -> result ProgInfo;
  progInfo_roundtrip : forall p, progInfoFromBytes (marshalProgInfo p) = Ok p;
  (** The parser inside [json.Unmarshal]. *)
  jsonParse : list byte -> result json
}.

(** ** The manager *)

Section Manager.
Context `{Platform}.

(** [NewManager]: the paths of the state directory under the root.
    [os.MkdirAll] makes that directory; its files are in [files], and
    the walks that skip hidden names never list it. *)
Definition NewManager (root : string) : Manager :=
  let dp := Join root detaDir in
  mkManager root dp (Join dp progInfoFile) (Join dp stateFile).

(** [Manager.StoreProgInfo] *)
Definition StoreProgInfo (m : Manager) (p : ProgInfo) : M (option error) :=
  WriteFile (progInfoPath m) (marshalProgInfo p).

(** [Manager.readFile] *)
Definition readFile (m : Manager) (path : string) : M (result (list byte)) :=
  os_read path.

(** [Manager.GetProgInfo]: the pointer and the error, as returned. *)
Definition GetProgInfo (m : Manager) : M (option ProgInfo * option error) :=
  r <- readFile m (progInfoPath m) ;;
  match r with
  | Err e =>
      if bool_decide (e = ErrNotExist) then ret (None, None)
      else ret (None, Some e)
  | Ok contents =>
      match progInfoFromBytes contents with
      | Ok p => ret (Some p, None)
      | Err e => ret (None, Some e)
      end
  end.

(** The function literal of [GetRuntime]; its variables are [runtime]
    and [found].  It does not read [err]: a directory that does not
    list is passed over.  [isdir] is [info.IsDir()] for the [FileInfo]
    of an entry that [os.Lstat] has found. *)
Definition GetRuntime_fn : WalkFunc (string * bool) :=
  fun s path isdir err =>
    if isdir then ret (s, None)
    else
      match entryPoints (snd (Split path)) with
      | Some r =>
          if negb (snd s) then ret ((r, true), None)
          else ret (s, Some (errorString "Conflicting entrypoint files found"))
      | None => ret (s, None)
      end.

(** [Manager.GetRuntime] *)
Definition GetRuntime (m : Manager) : M (result string) :=
  r <- Walk (rootDir m) GetRuntime_fn ("", false) ;;
  match snd r with
  | Some e => ret (Err e)
  | None =>
      if negb (snd (fst r))
      then ret (Err (errorString ("No supported runtime found in " ++ rootDir m)%string))
      else ret (Ok (fst (fst r)))
  end.

(** [Manager.isHidden], default branch of the switch on the target. *)
Definition isHidden (m : Manager) (path : string) : bool :=
  HasPrefix (snd (Split path)) ".".

(** [Manager.calcChecksum] *)
Definition calcChecksum (m : Manager) (path : string) : M (result string) :=
  r <- readFile m path ;;
  match r with
  | Err e => ret (Err e)
  | Ok contents => ret (Ok (hex (Sum256 contents)))
  end.

(** The function literal of [storeState]; its variable is [sm].  The
    error of listing a directory is overwritten before it is read. *)
Definition storeState_fn (m : Manager) : WalkFunc stateMap :=
  fun sm path isdir _ =>
    let hidden := isHidden m path in
    if isdir then
      if hidden then ret (sm, Some SkipDir) else ret (sm, None)
    else if hidden then ret (sm, None)
    else
      r <- calcChecksum m path ;;
      match r with
      | Err e => ret (sm, Some e)
      | Ok hashSum => ret (<[path := hashSum]> sm, None)
      end.

(** [Manager.storeState] *)
Definition storeState (m : Manager) : M (option error) :=
  r <- Walk (rootDir m) (storeState_fn m) (∅ : stateMap) ;;
  match snd r with
  | Some e => ret (Some e)
  | None => WriteFile (statePath m) (marshalState (fst r))
  end.

(** [Manager.getStoredState] *)
Definition getStoredState (m : Manager) : M (result stateMap) :=
  r <- readFile m (statePath m) ;;
  match r with
  | Err e => ret (Err e)
  | Ok contents => ret (stateMapFromBytes contents)
  end.

(** The function literal of [readAll]; its variable is [sc.Changes]. *)
Definition readAll_fn (m : Manager) : WalkFunc (gmap string (list byte)) :=
  fun ch path isdir err =>
    match err with
    | Some e => ret (ch, Some e)
    | None =>
        let hidden := isHidden m path in
        if isdir then
          if hidden then ret (ch, Some SkipDir) else ret (ch, None)
        else if hidden then ret (ch, None)
        else
          r <- os_read path ;;
          match r with
          | Err e => ret (ch, Some e)
          | Ok contents => ret (<[path := contents]> ch, None)
          end
    end.

(** [Manager.readAll] *)
Definition readAll (m : Manager) : M (result StateChanges) :=
  r <- Walk (rootDir m) (readAll_fn m) (∅ : gmap string (list byte)) ;;
  match snd r with
  | Some e => ret (Err e)
  | None => ret (Ok (mkStateChanges (fst r) []))
  end.

(** The function literal of [GetChanges]; its variables are
    [sc.Changes] and [deletions]. *)
Definition GetChanges_fn (m : Manager) (storedState : stateMap)
    : WalkFunc (gmap string (list byte) * gset string) :=
  fun s path isdir err =>
    match err with
    | Some e => ret (s, Some e)
    | None =>
        let hidden := isHidden m path in
        if isdir then
          if hidden then ret (s, Some SkipDir) else ret (s, None)
        else if hidden then ret (s, None)
        else
          let s1 := (fst s, snd s ∖ {[path]}) in
          r <- calcChecksum m path ;;
          match r with
          | Err e => ret (s1, Some e)
          | Ok checksum =>
              if bool_decide (default "" (storedState !! path) ≠ checksum)
              then
                c <- readFile m path ;;
                match c with
                | Err e => ret (s1, Some e)
                | Ok contents =>
                    ret ((<[path := contents]> (fst s1), snd s1), None)
                end
              else ret (s1, None)
          end
    end.

(** [Manager.GetChanges].  The error of the walk is assigned and not
    read again.  [Deletions] lists the set in some order; here, the
    order of [elements]. *)
Definition GetChanges (m : Manager) : M (result StateChanges) :=
  st <- getStoredState m ;;
  match st with
  | Err e =>
      if bool_decide (e = ErrNotExist) then readAll m
      else ret (Err e)
  | Ok storedState =>
      let deletions : gset string := dom storedState in
      r <- Walk (rootDir m) (GetChanges_fn m storedState) (∅, deletions) ;;
      ret (Ok (mkStateChanges (fst (fst r)) (elements (snd (fst r)))))
  end.

(** [json.Unmarshal(contents, &pkgJSON)] with [pkgJSON] a
    [map[string]interface{}]: [null] leaves the nil map, an object fills
    it, any other value is a type error. *)
Definition unmarshalMap (contents : list byte)
    : result (list (string * iface)) :=
  match jsonParse contents with
  | Err e => Err e
  | Ok JNull => Ok []
  | Ok (JObject members) =>
      Ok (List.map (fun kv => (fst kv, to_iface (snd kv))) members)
  | Ok _ => Err ErrSyntax
  end.

(** The [Node] case of [readDeps], after the manifest is read. *)
Definition nodeDeps (contents : list byte) : result (list string) :=
  match unmarshalMap contents with
  | Err e => Err e
  | Ok pkgJSON =>
      match member "dependencies" pkgJSON with
      | None => Ok []
      | Some deps =>
          match type_string deps with
          | None => Err Panic
          | Some t =>
              if negb (String.eqb t "map[string]string")
              then Err (errorString "'package.json' is of unexpected format")
              else
                match deps with
                | IMapString mp =>
                    Ok (List.map (fun kv : string * string =>
                                    (fst kv ++ "@" ++ snd kv)%string)
                                 (map_to_list mp))
                | _ => Err Panic
                end
          end
      end
  end.

(** [Manager.readDeps] *)
Definition readDeps (m : Manager) (runtime : string)
    : M (result (list string)) :=
  r <- readFile m (depFiles runtime) ;;
  match r with
  | Err e =>
      if bool_decide (e = ErrNotExist) then ret (Ok []) else ret (Err e)
  | Ok contents =>
      if String.eqb runtime Python
      then ret (Ok (SplitOn "010" (string_of_bytes contents)))
      else if String.eqb runtime Node
      then ret (nodeDeps contents)
      else ret (Err (errorString ("unsupported runtime '" ++ runtime ++ "'")%string))
  end.

(** The two loops that close [GetDepChanges]: [removedDeps] starts as
    the stored list; a current identifier found in it is deleted from
    it, one not found in it is appended to [Added].  [Removed] lists
    what is left in some order; here, the order of [elements]. *)
Definition depDiff_step (s : list string * gset string) (d : string)
    : list string * gset string :=
  if bool_decide (d ∈ snd s) then (fst s, snd s ∖ {[d]})
  else (fst s ++ [d], snd s).

Definition depDiff (stored deps : list string) : DepChanges :=
  let removedDeps : gset string := list_to_set stored in
  let r := fold_left depDiff_step deps ([], removedDeps) in
  mkDepChanges (fst r) (elements (snd r)).

(** [Manager.GetDepChanges] *)
Definition GetDepChanges (m : Manager) : M (result DepChanges) :=
  pe <- GetProgInfo m ;;
  match fst pe with
  | None =>
      rt <- GetRuntime m ;;
      match rt with
      | Err e => ret (Err e)
      | Ok runtime =>
          ds <- readDeps m runtime ;;
          match ds with
          | Err e => ret (Err e)
          | Ok deps => ret (Ok (mkDepChanges deps []))
          end
      end
  | Some progInfo =>
      if Nat.eqb (length (Deps progInfo)) 0 then
        runtime <- (if String.eqb (Runtime progInfo) ""
                    then rt <- GetRuntime m ;;
                         ret (match rt with Ok r => r | Err _ => "" end)
                    else ret (Runtime progInfo)) ;;
        ds <- readDeps m runtime ;;
        match ds with
        | Err e => ret (Err e)
        | Ok deps => ret (Ok (mkDepChanges deps []))
        end
      else
        ds <- readDeps m (Runtime progInfo) ;;
        match ds with
        | Err e => ret (Err e)
        | Ok deps => ret (Ok (depDiff (Deps progInfo) deps))
        end
  end.

End Manager.

(** * Vocabulary of the properties *)

(** An operation that leaves the disk as it found it. *)
Definition readonly {A : Type} (f : M A) : Prop := forall d, snd (f d) = d.

(** ** Paths below the root *)

(** Names in sequence, a separator between each two. *)
Fixpoint joinNames (names : list string) : string :=
  match names with
  | [] => ""
  | [n] => n
  | n :: rest => n ++ "/" ++ joinNames rest
  end.

(** [s] without its prefix [pre], if it starts with it. *)
Fixpoint strip_prefix (pre s : string) : option string :=
  match pre, s with
  | EmptyString, _ => Some s
  | String a pre', String b s' =>
      if Ascii.eqb a b then strip_prefix pre' s' else None
  | String _ _, EmptyString => None
  end.

(** The names on the way from the root down to [path], for a path
    strictly below the root. *)
Definition components (root path : string) : option (list string) :=
  match strip_prefix (root ++ "/") path with
  | Some rest => Some (SplitOn "/" rest)
  | None => None
  end.

(** The hidden marker starts the name. *)
Definition hidden_name (name : string) : bool := HasPrefix name ".".

(** [path] is below the root and a directory on the way to it (the root
    included) or its own last name is hidden. *)
Definition under_hidden (root path : string) : bool :=
  match components root path with
  | Some names =>
      hidden_name (snd (Split root)) || existsb hidden_name names
  | None => false
  end.

(** Every name below this node is a file name: it holds no separator. *)
Fixpoint names_ok (n : node) : bool :=
  match n with
  | File _ => true
  | Dir _ _ children =>
      forallb (fun c => sep_free (node_name c) && names_ok c) children
  end.

(** The path of the names [names] below the root. *)
Definition below (root : string) (names : list string) : string :=
  (root ++ "/" ++ joinNames names)%string.

(** The paths on which a walk that skips hidden directories calls its
    function: the root, and each entry of a directory reached that is
    not hidden. *)
Inductive reach (root : string) : string -> Prop :=
| reach_root : reach root root
| reach_child path name :
    reach root path ->
    hidden_name (snd (Split path)) = false ->
    sep_free name = true ->
    reach root (Join path name).

(** A name proper of a file or directory: not empty, not [.] or [..],
    and without separator. *)
Definition plain_name (n : string) : bool :=
  negb (String.eqb n "") && negb (String.eqb n ".")
  && negb (String.eqb n "..") && sep_free n.

(** A clean path that names its directory by going down only: names
    proper with one separator between each two, after one leading
    separator when the path is absolute.  On such a directory path and
    a name proper, [filepath.Join] has nothing to clean. *)
Definition plain_path (p : string) : bool :=
  match SplitOn "/" p with
  | "" :: (_ :: _) as names => forallb plain_name names
  | names => forallb plain_name names
  end.

(** The character does not occur in the string. *)
Fixpoint char_free (c : ascii) (s : string) : bool :=
  match s with
  | EmptyString => true
  | String x rest => negb (Ascii.eqb x c) && char_free c rest
  end.

(** ** Snapshots *)

(** No key of the map is a hidden path below the root. *)
Definition no_hidden_key {V : Type} (root : string) (mp : gmap string V)
    : Prop :=
  forall path, under_hidden root path = true -> mp !! path = None.

(** The map that [storeState] builds on a disk. *)
Definition snapshot `{Platform} (m : Manager) (d : disk) : stateMap :=
  fst (fst (Walk (rootDir m) (storeState_fn m) (∅ : stateMap) d)).

(** The state file on [d] is the one that [storeState] wrote on [d0]. *)
Definition snapshot_of `{Platform} (m : Manager) (d0 d : disk) : Prop :=
  fst (storeState m d0) = None /\
  files d !! abspath d (statePath m)
  = Some (Data (marshalState (snapshot m d0))).

(** ** A small platform, to run the model on examples *)

Module Example.

(** The digest: the first 32 bytes of the contents, zero padded. *)
Definition pad32 (b : list byte) : list byte :=
  firstn 32 (b ++ repeat x00 32).

(** A positive number, one binary digit a byte. *)
Fixpoint pos_bytes (p : positive) : list byte :=
  match p with
  | xH => []
  | xO q => x00 :: pos_bytes q
  | xI q => x01 :: pos_bytes q
  end.

Fixpoint bytes_pos (bs : list byte) : option positive :=
  match bs with
  | [] => Some xH
  | x00 :: rest => option_map xO (bytes_pos rest)
  | x01 :: rest => option_map xI (bytes_pos rest)
  | _ => None
  end.

Definition put {A : Type} `{Countable A} (a : A) : list byte :=
  pos_bytes (encode a).

Definition get {A : Type} `{Countable A} (bs : list byte) : result A :=
  match bytes_pos bs with
  | Some p =>
      match decode p with
      | Some a => Ok a
      | None => Err ErrSyntax
      end
  | None => Err ErrSyntax
  end.

Definition putProgInfo (p : ProgInfo) : list byte :=
  put (Runtime p, Deps p).

Definition getProgInfo (bs : list byte) : result ProgInfo :=
  match get (A := string * list string) bs with
  | Ok (r, ds) => Ok (mkProgInfo r ds)
  | Err e => Err e
  end.

(** A parser for the JSON texts of the examples: objects, arrays,
    strings without escapes, integers, and the three literals. *)
Definition quote : ascii := "034".

Definition is_ws (c : ascii) : bool :=
  Ascii.eqb c " " || Ascii.eqb c "010" || Ascii.eqb c "009"
  || Ascii.eqb c "013".

Definition is_digit (c : ascii) : bool :=
  let n := nat_of_ascii c in Nat.leb 48 n && Nat.leb n 57.

Fixpoint skip_ws (s : string) : string :=
  match s with
  | String c r => if is_ws c then skip_ws r else s
  | EmptyString => s
  end.

(** The characters up to the closing quote, and what follows it. *)
Fixpoint read_string (s : string) : option (string * string) :=
  match s with
  | EmptyString => None
  | String c r =>
      if Ascii.eqb c quote then Some (EmptyString, r)
      else match read_string r with
           | Some (x, r') => Some (String c x, r')
           | None => None
           end
  end.

Fixpoint read_digits (s : string) : string * string :=
  match s with
  | String c r =>
      if is_digit c
      then let (x, r') := read_digits r in (String c x, r')
      else (EmptyString, s)
  | EmptyString => (EmptyString, s)
  end.

Definition expect (word s : string) : option string := strip_prefix word s.

Fixpoint parse_value (fuel : nat) (s : string) : option (json * string) :=
  match fuel with
  | 0 => None
  | S f =>
      match skip_ws s with
      | EmptyString => None
      | String c r =>
          if Ascii.eqb c "{" then parse_members f (skip_ws r) []
          else if Ascii.eqb c "[" then parse_items f (skip_ws r) []
          else if Ascii.eqb c quote then
            match read_string r with
            | Some (x, r') => Some (JString x, r')
            | None => None
            end
          else if Ascii.eqb c "n" then
            option_map (fun r' => (JNull, r')) (expect "ull" r)
          else if Ascii.eqb c "t" then
            option_map (fun r' => (JBool true, r')) (expect "rue" r)
          else if Ascii.eqb c "f" then
            option_map (fun r' => (JBool false, r')) (expect "alse" r)
          else if is_digit c then
            let (x, r') := read_digits r in Some (JNumber (String c x), r')
          else None
      end
  end
with parse_members (fuel : nat) (s : string) (acc : list (string * json))
    : option (json * string) :=
  match fuel with
  | 0 => None
  | S f =>
      match s with
      | EmptyString => None
      | String c r =>
          if Ascii.eqb c "}" then Some (JObject (rev acc), r)
          else if Ascii.eqb c quote then
            match read_string r with
            | Some (key, r1) =>
                match skip_ws r1 with
                | String c1 r2 =>
                    if Ascii.eqb c1 ":" then
                      match parse_value f r2 with
                      | Some (v, r3) =>
                          match skip_ws r3 with
                          | String c3 r4 =>
                              if Ascii.eqb c3 ","
                              then parse_members f (skip_ws r4)
                                     ((key, v) :: acc)
                              else if Ascii.eqb c3 "}"
                              then Some (JObject (rev ((key, v) :: acc)), r4)
                              else None
                          | EmptyString => None
                          end
                      | None => None
                      end
                    else None
                | EmptyString => None
                end
            | None => None
            end
          else None
      end
  end
with parse_items (fuel : nat) (s : string) (acc : list json)
    : option (json * string) :=
  match fuel with
  | 0 => None
  | S f =>
      match s with
      | EmptyString => None
      | String c r =>
          if Ascii.eqb c "]" then Some (JArray (rev acc), r)
          else
            match parse_value f s with
            | Some (v, r1) =>
                match skip_ws r1 with
                | String c1 r2 =>
                    if Ascii.eqb c1 ","
                    then parse_items f (skip_ws r2) (v :: acc)
                    else if Ascii.eqb c1 "]"
                    then Some (JArray (rev (v :: acc)), r2)
                    else None
                | EmptyString => None
                end
            | None => None
            end
      end
  end.

Definition parse (bs : list byte) : result json :=
  let s := string_of_bytes bs in
  match parse_value (2 * String.length s + 2) s with
  | Some (j, rest) =>
      match skip_ws rest with
      | EmptyString => Ok j
      | String _ _ => Err ErrSyntax
      end
  | None => Err ErrSyntax
  end.

End Example.

(** What [GetChanges] keeps true of its two variables: no hidden key
    among the changes, and no deletion that is not a stored key. *)
Definition changes_inv (m : Manager) (st : stateMap)
    (s : gmap string (list byte) * gset string) : Prop :=
  no_hidden_key (rootDir m) (fst s) /\ snd s ⊆ dom st.

(** The hidden paths that the stored state names are still among the
    deletions. *)
Definition hidden_kept (m : Manager) (st : stateMap)
    (s : gmap string (list byte) * gset string) : Prop :=
  forall path,
    under_hidden (rootDir m) path = true -> path ∈ dom st -> path ∈ snd s.

Definition unexpected_format : error :=
  errorString "'package.json' is of unexpected format".

(** ** A walk as a run over what it meets *)

(** What a walk that skips hidden names meets, in order: the files that
    are not hidden, and the error of a directory that does not list.
    A [strict] function returns that error and stops the walk; one that
    is not passes the directory over. *)
Fixpoint events (strict : bool) (path : string) (n : node)
    : list (string + error) :=
  match n with
  | File _ => if hidden_name (snd (Split path)) then [] else [inl path]
  | Dir _ listable children =>
      if listable then
        if hidden_name (snd (Split path)) then []
        else flat_map (fun c => events strict (Join path (node_name c)) c)
                      children
      else if strict then [inr ErrPermission] else []
  end.

(** The walk leaves this entry with [SkipDir]. *)
Definition skipped (strict : bool) (path : string) (n : node) : bool :=
  match n with
  | File _ => false
  | Dir _ listable _ =>
      hidden_name (snd (Split path)) && (listable || negb strict)
  end.

(** The files among the events. *)
Definition files_of (evs : list (string + error)) : list string :=
  omap (fun ev => match ev with inl p => Some p | inr _ => None end) evs.

Definition visited (strict : bool) (path : string) (n : node) : list string :=
  files_of (events strict path n).

(** The walk function on each file in turn, up to the first error. *)
Fixpoint run {S : Type} (fn : WalkFunc S) (evs : list (string + error))
    (s : S) : M (S * option error) :=
  match evs with
  | [] => ret (s, None)
  | inl p :: rest =>
      r <- fn s p false None ;;
      match snd r with
      | None => run fn rest (fst r)
      | Some e => ret r
      end
  | inr e :: _ => ret (s, Some e)
  end.

(** A walk function that skips hidden names and does not write. *)
Record visits {S : Type} (strict : bool) (fn : WalkFunc S) : Prop := {
  visits_dir : forall s path d,
    fn s path true None d
    = ((s, if hidden_name (snd (Split path)) then Some SkipDir else None), d);
  visits_unlisted : forall s path e d,
    fn s path true (Some e) d
    = ((s, if strict then Some e
           else if hidden_name (snd (Split path)) then Some SkipDir
           else None), d);
  visits_hidden_file : forall s path d,
    hidden_name (snd (Split path)) = true ->
    fn s path false None d = ((s, None), d);
  visits_file : forall s path d,
    snd (fn s path false None d) = d /\
    snd (fst (fn s path false None d)) <> Some SkipDir
}.

(** Every directory of the tree lists. *)
Fixpoint all_listable (n : node) : bool :=
  match n with
  | File _ => true
  | Dir _ listable children => listable && forallb all_listable children
  end.

(** The stored fingerprint of the path is not that of the contents;
    a path that is not stored reads as the empty string. *)
Definition differs `{Platform} (st : stateMap) (path : string)
    (c : list byte) : Prop :=
  default "" (st !! path) <> hex (Sum256 c).

(** The event is a file whose name is not hidden. *)
Definition plain_file (ev : string + error) : Prop :=
  match ev with
  | inl p => hidden_name (snd (Split p)) = false
  | inr _ => False
  end.

(** What is true of the two variables of [GetChanges] at every point of
    a walk: a key of [Changes] is a file that was read, with the
    contents read, whose fingerprint differs from the stored one, and it
    is no longer among the deletions; the deletions are stored keys. *)
Definition sound_changes `{Platform} (m : Manager) (d : disk)
    (st : stateMap) (D0 : gset string)
    (s : gmap string (list byte) * gset string) : Prop :=
  (forall p c,
      fst s !! p = Some c ->
      fst (readFile m p d) = Ok c /\ differs st p c /\
      hidden_name (snd (Split p)) = false /\ p ∉ snd s) /\
  snd s ⊆ D0.

(** The event is a file that can be read. *)
Definition readable (d : disk) (ev : string + error) : Prop :=
  match ev with
  | inl p => exists c, fst (os_read p d) = Ok c
  | inr _ => False
  end.

(** ** Entrypoint files *)

(** The runtimes of the entrypoint files that the walk of [GetRuntime]
    comes upon, in its order.  That walk enters hidden directories too,
    and passes over a directory that does not list. *)
Fixpoint entryRuntimes (path : string) (n : node) : list string :=
  match n with
  | File _ =>
      match entryPoints (snd (Split path)) with
      | Some r => [r]
      | None => []
      end
  | Dir _ listable children =>
      if listable
      then flat_map (fun c => entryRuntimes (Join path (node_name c)) c)
                    children
      else []
  end.

Definition conflicting : error :=
  errorString "Conflicting entrypoint files found".

Definition unsupported (root : string) : error :=
  errorString ("No supported runtime found in " ++ root)%string.

(** The variables of [GetRuntime] after a sequence of entrypoint files:
    the first is kept, the second is an error. *)
Fixpoint scan (s : string * bool) (rs : list string)
    : (string * bool) * option error :=
  match rs with
  | [] => (s, None)
  | r :: rest => if snd s then (s, Some conflicting) else scan (r, true) rest
  end.

(** The names of the files of a tree, in the order of a walk that
    enters every directory that lists. *)
Fixpoint leaf_names (n : node) : list string :=
  match n with
  | File name => [name]
  | Dir _ listable children =>
      if listable then flat_map leaf_names children else []
  end.

(** A digit of lower-case hexadecimal. *)
Definition is_lower_hex (c : ascii) : bool :=
  existsb (Ascii.eqb c) (list_ascii_of_string "0123456789abcdef").

(** ** Disks to run the model on *)

Module Scenario.

Definition app : Manager :=
  mkManager "/app" "/app/.deta" "/app/.deta/progInfo" "/app/.deta/state".

Definition bytes (s : string) : list byte := String.list_byte_of_string s.

(** A project with a hidden file and a hidden directory. *)
Definition project_tree : node :=
  Dir "app" true
    [ File ".env";
      Dir ".git" true [ File "config" ];
      File "a.py";
      File "b.py";
      Dir "lib" true [ File "x.py" ] ].

Definition project : disk :=
  mkDisk "/home" project_tree
    (list_to_map
       [ ("/app/.env", Data (bytes "KEY=1"));
         ("/app/.git/config", Data (bytes "[core]"));
         ("/app/a.py", Data (bytes "print(1)"));
         ("/app/b.py", Data (bytes "print(2)"));
         ("/app/lib/x.py", Data (bytes "x = 0")) ]).

(** The same project later, after a snapshot was stored: [b.py] is
    gone and the hidden file below [.git] has new contents. *)
Definition project_later `{Platform} : disk :=
  let d := snd (storeState app project) in
  mkDisk (cwd d)
    (Dir "app" true
       [ File ".env";
         Dir ".git" true [ File "config" ];
         File "a.py";
         Dir "lib" true [ File "x.py" ] ])
    (<["/app/.git/config" := Data (bytes "[core] bare")]>
       (delete "/app/b.py" (files d))).

(** A project with a manifest at its root, and a working directory
    that is not the root and holds no manifest. *)
Definition with_manifest : disk :=
  mkDisk "/home"
    (Dir "app" true [ File "main.py"; File "requirements.txt" ])
    (list_to_map
       [ ("/app/main.py", Data (bytes "import flask"));
         ("/app/requirements.txt", Data (bytes "flask")) ]).

Definition q : string := String Example.quote "".

(** The manifest of the scenario: two dependencies, a flat mapping. *)
Definition package_json : string :=
  ("{" ++ q ++ "dependencies" ++ q ++ ": {"
       ++ q ++ "flask" ++ q ++ ": " ++ q ++ "1.0" ++ q ++ ", "
       ++ q ++ "requests" ++ q ++ ": " ++ q ++ "2.0" ++ q ++ "}}")%string.

Definition package_json_parsed : json :=
  JObject [ ("dependencies",
             JObject [ ("flask", JString "1.0");
                       ("requests", JString "2.0") ]) ].

(** A Node project run from its root, with [flask@1.0] stored as its
    one dependency. *)
Definition node_project `{Platform} : disk :=
  mkDisk "/app"
    (Dir "app" true [ File "index.js"; File "package.json" ])
    (list_to_map
       [ ("/app/index.js", Data (bytes "exports = {}"));
         ("/app/package.json", Data (bytes package_json));
         ("/app/.deta/progInfo",
          Data (marshalProgInfo (mkProgInfo Node ["flask@1.0"]))) ]).

(** A Python project run from its root; [requirements.txt] names
    [flask] twice, and [flask] is the one dependency stored. *)
Definition repeated_dep `{Platform} : disk :=
  mkDisk "/app"
    (Dir "app" true [ File "main.py"; File "requirements.txt" ])
    (list_to_map
       [ ("/app/main.py", Data (bytes "import flask"));
         ("/app/requirements.txt",
          Data (bytes (String.concat (String "010" "") ["flask"; "flask"])));
         ("/app/.deta/progInfo",
          Data (marshalProgInfo (mkProgInfo Python ["flask"]))) ]).

(** A Python project run from its root whose program info file holds
    bytes that no encoder wrote. *)
Definition corrupt_info : disk :=
  mkDisk "/app"
    (Dir "app" true [ File "main.py"; File "requirements.txt" ])
    (list_to_map
       [ ("/app/main.py", Data (bytes "import flask"));
         ("/app/requirements.txt", Data (bytes "flask"));
         ("/app/.deta/progInfo", Data (bytes "{")) ]).

(** The same with a program info file that cannot be opened. *)
Definition denied_info : disk :=
  mkDisk "/app"
    (Dir "app" true [ File "main.py"; File "requirements.txt" ])
    (list_to_map
       [ ("/app/main.py", Data (bytes "import flask"));
         ("/app/requirements.txt", Data (bytes "flask"));
         ("/app/.deta/progInfo", Denied) ]).

(** The project after a snapshot was stored, with new contents in
    [a.py] and a new file [c.py]. *)
Definition project_edited `{Platform} : disk :=
  let d := snd (storeState app project) in
  mkDisk (cwd d)
    (Dir "app" true
       [ File ".env";
         Dir ".git" true [ File "config" ];
         File "a.py";
         File "b.py";
         File "c.py";
         Dir "lib" true [ File "x.py" ] ])
    (<["/app/c.py" := Data (bytes "print(3)")]>
       (<["/app/a.py" := Data (bytes "print(10)")]> (files d))).

(** A stored snapshot that is empty; the directory [cache] does not
    list, and after it comes [main.py], a new file that can be read. *)
Definition behind_unlistable `{Platform} : disk :=
  mkDisk "/app"
    (Dir "app" true [ Dir "cache" false []; File "main.py" ])
    (list_to_map
       [ ("/app/main.py", Data (bytes "print(1)"));
         ("/app/.deta/state", Data (marshalState ∅)) ]).

(** A stored snapshot that knows [c.py]; [a.py] is new, [b.py] cannot
    be opened, [c.py] is still there. *)
Definition aborted `{Platform} : disk :=
  mkDisk "/app"
    (Dir "app" true [ File "a.py"; File "b.py"; File "c.py" ])
    (list_to_map
       [ ("/app/a.py", Data (bytes "print(1)"));
         ("/app/b.py", Denied);
         ("/app/c.py", Data (bytes "print(3)"));
         ("/app/.deta/state",
          Data (marshalState {[ "/app/c.py" := "00" ]})) ]).

(** A directory that does not list, before a file; no snapshot yet. *)
Definition unlistable : disk :=
  mkDisk "/app"
    (Dir "app" true [ Dir "cache" false []; File "main.py" ])
    (list_to_map [ ("/app/main.py", Data (bytes "print(1)")) ]).

(** An entrypoint file at the root and one of the other runtime below
    a hidden directory. *)
Definition hidden_entrypoint : disk :=
  mkDisk "/app"
    (Dir "app" true
       [ Dir ".old" true [ File "index.js" ];
         File "main.py" ])
    (list_to_map
       [ ("/app/.old/index.js", Data (bytes "exports = {}"));
         ("/app/main.py", Data (bytes "print(1)")) ]).

(** A stored program info with no runtime and no dependency, in a
    project without entrypoint file. *)
Definition no_entrypoint `{Platform} : disk :=
  mkDisk "/app"
    (Dir "app" true [ File "README" ])
    (list_to_map
       [ ("/app/README", Data (bytes "?"));
         ("/app/.deta/progInfo", Data (marshalProgInfo (mkProgInfo "" []))) ]).

(** A Node project run from its root whose manifest names no
    dependency, with two dependencies stored. *)
Definition node_bare `{Platform} : disk :=
  mkDisk "/app"
    (Dir "app" true [ File "index.js"; File "package.json" ])
    (list_to_map
       [ ("/app/index.js", Data (bytes "exports = {}"));
         ("/app/package.json", Data (bytes "{}"));
         ("/app/.deta/progInfo",
          Data (marshalProgInfo
                  (mkProgInfo Node ["flask@1.0"; "requests@2.0"]))) ]).

(** The project with a state file that names the file below [.git]:
    no [storeState] of this manager wrote it. *)
Definition hidden_in_state `{Platform} : disk :=
  mkDisk "/home" project_tree
    (<["/app/.deta/state" :=
         Data (marshalState {[ "/app/.git/config" := "00" ]})]>
       (files project)).

(** A Python project with its manifest at the root, run from a
    directory below the root that holds a file of the manifest's
    name. *)
Definition run_from_subdir : disk :=
  mkDisk "/app/sub"
    (Dir "app" true
       [ File "main.py";
         File "requirements.txt";
         Dir "sub" true [ File "requirements.txt" ] ])
    (list_to_map
       [ ("/app/main.py", Data (bytes "import flask"));
         ("/app/requirements.txt", Data (bytes "flask"));
         ("/app/sub/requirements.txt", Data (bytes "django")) ]).

(** Two entrypoint files of the one runtime, in two directories. *)
Definition two_mains : disk :=
  mkDisk "/app"
    (Dir "app" true
       [ Dir "api" true [ File "main.py" ];
         Dir "jobs" true [ File "main.py" ] ])
    (list_to_map
       [ ("/app/api/main.py", Data (bytes "print(1)"));
         ("/app/jobs/main.py", Data (bytes "print(2)")) ]).

End Scenario.

(** * Properties *)

(** ** Induction on directory trees *)

Lemma node_rect' (P : node -> Prop)
    (HF : forall name, P (File name))
    (HD : forall name listable children,
            Forall P children -> P (Dir name listable children)) :
  forall n, P n.
Proof.
  fix IH 1. intros [name | name l cs].
  - apply HF.
  - apply HD. induction cs as [|c cs IHcs]; constructor; [apply IH | exact IHcs].
Qed.

(** ** Operations that leave the disk as it is *)

Lemma readonly_ret {A} (a : A) : readonly (ret a).
Proof. intros d; reflexivity. Qed.

Lemma readonly_bind {A B} (f : M A) (k : A -> M B) :
  readonly f -> (forall a, readonly (k a)) -> readonly (bind f k).
Proof.
  intros Hf Hk d. unfold bind. specialize (Hf d).
  destruct (f d) as [a d']. simpl in Hf. subst d'. apply Hk.
Qed.

Lemma readonly_os_read path : readonly (os_read path).
Proof. intros d; reflexivity. Qed.

Lemma readonly_walkEach {S} (rec : string -> node -> S -> M (S * option error))
    path cs :
  Forall (fun c => forall p s, readonly (rec p c s)) cs ->
  forall s, readonly (walkEach rec path cs s).
Proof.
  induction 1 as [|c cs Hc _ IH]; intros s; simpl.
  - apply readonly_ret.
  - apply readonly_bind; [apply Hc|]. intros [s' [e|]]; simpl.
    + destruct (negb (IsDir c) || negb (bool_decide (e = SkipDir)));
        [apply readonly_ret | apply IH].
    + apply IH.
Qed.

Lemma readonly_walk {S} (fn : WalkFunc S) :
  (forall s p b e, readonly (fn s p b e)) ->
  forall n p s, readonly (walk fn p n s).
Proof.
  intros Hfn n. induction n as [name | name l cs IH] using node_rect';
    intros p s; simpl.
  - apply Hfn.
  - apply readonly_bind; [apply Hfn|]. intros [s' e].
    destruct l; simpl; [destruct e|]; try apply readonly_ret.
    apply readonly_walkEach. exact IH.
Qed.

Lemma readonly_Walk {S} (fn : WalkFunc S) root s :
  (forall s p b e, readonly (fn s p b e)) -> readonly (Walk root fn s).
Proof.
  intros Hfn d. unfold Walk.
  pose proof (readonly_walk fn Hfn (tree d) root s d) as Hw.
  destruct (walk fn root (tree d) s d) as [[s' e] d']. simpl in *.
  destruct e as [[]|]; exact Hw.
Qed.

(** Closes a goal [readonly f] for [f] built from reads, [ret], [bind]
    and case analysis. *)
Ltac readonly_step :=
  match goal with
  | |- readonly (ret _) => apply readonly_ret
  | |- readonly (os_read _) => apply readonly_os_read
  | |- readonly (bind _ _) => apply readonly_bind; [|intros ?]
  | |- readonly (match ?x with _ => _ end) => destruct x
  | |- readonly (if ?b then _ else _) => destruct b
  end.

Section ReadOnly.
Context `{Platform}.

Lemma readonly_readFile m path : readonly (readFile m path).
Proof. apply readonly_os_read. Qed.

Lemma readonly_calcChecksum m path : readonly (calcChecksum m path).
Proof.
  unfold calcChecksum.
  apply readonly_bind; [apply readonly_readFile|].
  intros []; apply readonly_ret.
Qed.

Lemma readonly_getStoredState m : readonly (getStoredState m).
Proof.
  unfold getStoredState.
  apply readonly_bind; [apply readonly_readFile|].
  intros []; apply readonly_ret.
Qed.

Lemma readonly_readAll_fn m s p b e : readonly (readAll_fn m s p b e).
Proof. unfold readAll_fn. repeat readonly_step. Qed.

Lemma readonly_GetChanges_fn m st s p b e :
  readonly (GetChanges_fn m st s p b e).
Proof.
  unfold GetChanges_fn.
  repeat first [apply readonly_calcChecksum | apply readonly_readFile
               | readonly_step].
Qed.

Lemma readonly_readAll m : readonly (readAll m).
Proof.
  unfold readAll. apply readonly_bind.
  - apply readonly_Walk, readonly_readAll_fn.
  - intros [s [e|]]; apply readonly_ret.
Qed.

Lemma readonly_GetChanges m : readonly (GetChanges m).
Proof.
  unfold GetChanges. apply readonly_bind; [apply readonly_getStoredState|].
  intros [st|e].
  - apply readonly_bind; [|intros; apply readonly_ret].
    apply readonly_Walk, readonly_GetChanges_fn.
  - destruct (bool_decide (e = ErrNotExist));
      [apply readonly_readAll | apply readonly_ret].
Qed.

End ReadOnly.

(** ** Facts on strings and paths *)

Lemma string_app_cons (x : ascii) (a b : string) :
  (String x a ++ b)%string = String x (a ++ b)%string.
Proof. reflexivity. Qed.

Lemma string_app_nil (b : string) : ("" ++ b)%string = b.
Proof. reflexivity. Qed.

Lemma string_app_assoc (a b c : string) :
  ((a ++ b) ++ c)%string = (a ++ (b ++ c))%string.
Proof.
  induction a as [|x a IH]; [reflexivity|].
  rewrite !string_app_cons. f_equal. exact IH.
Qed.

Lemma string_app_empty_r (a : string) : (a ++ "")%string = a.
Proof.
  induction a as [|x a IH]; [reflexivity|].
  rewrite string_app_cons. f_equal. exact IH.
Qed.

Lemma string_length_app (a b : string) :
  String.length (a ++ b) = String.length a + String.length b.
Proof.
  induction a as [|x a IH]; [reflexivity|].
  rewrite string_app_cons. simpl. now rewrite IH.
Qed.

Lemma strip_prefix_app (pre s : string) :
  strip_prefix pre (pre ++ s) = Some s.
Proof.
  induction pre as [|a pre IH]; [reflexivity|].
  rewrite string_app_cons. simpl. now rewrite Ascii.eqb_refl.
Qed.

Lemma strip_prefix_Some (pre s rest : string) :
  strip_prefix pre s = Some rest -> s = (pre ++ rest)%string.
Proof.
  revert s. induction pre as [|a pre IH]; intros s; simpl.
  - intros [= ->]. reflexivity.
  - destruct s as [|b s]; [discriminate|].
    destruct (Ascii.eqb_spec a b) as [->|]; [|discriminate].
    intros Hs. rewrite string_app_cons. now rewrite <- (IH _ Hs).
Qed.

Lemma Split_sep_free (name : string) :
  sep_free name = true -> Split name = ("", name).
Proof.
  induction name as [|c name IH]; simpl; [reflexivity|].
  intros [Hc Hn]%andb_prop. rewrite (IH Hn).
  now destruct (is_sep c).
Qed.

(** [filepath.Split] cuts a joined path back into its two parts. *)
Lemma Split_Join (dir name : string) :
  sep_free name = true -> Split (Join dir name) = ((dir ++ "/")%string, name).
Proof.
  intros Hn.
  change (Split (dir ++ String "/" name) = ((dir ++ "/")%string, name)).
  induction dir as [|c dir IH].
  - change (Split (String "/" name) = ("/", name)).
    simpl. now rewrite (Split_sep_free _ Hn).
  - rewrite !(string_app_cons c dir). simpl. rewrite IH. now destruct dir.
Qed.

Lemma Split_Join_snd (dir name : string) :
  sep_free name = true -> snd (Split (Join dir name)) = name.
Proof. intros Hn. now rewrite Split_Join. Qed.

Lemma SplitOn_sep_free (name : string) :
  sep_free name = true -> SplitOn "/" name = [name].
Proof.
  induction name as [|c name IH]; simpl; [reflexivity|].
  intros [Hc Hn]%andb_prop. rewrite (IH Hn).
  unfold is_sep in Hc. now destruct (Ascii.eqb c "/").
Qed.

Lemma SplitOn_cons (name rest : string) :
  sep_free name = true ->
  SplitOn "/" (name ++ String "/" rest) = name :: SplitOn "/" rest.
Proof.
  induction name as [|c name IH]; intros Hn.
  - reflexivity.
  - simpl in Hn. apply andb_prop in Hn as [Hc Hn].
    rewrite string_app_cons. simpl. rewrite (IH Hn).
    unfold is_sep in Hc. now destruct (Ascii.eqb c "/").
Qed.

Lemma SplitOn_joinNames (names : list string) :
  names <> [] -> Forall (fun n => sep_free n = true) names ->
  SplitOn "/" (joinNames names) = names.
Proof.
  induction names as [|n [|n' rest] IH]; intros Hne Hall; [done| |].
  - simpl. apply SplitOn_sep_free. now inversion Hall.
  - inversion Hall as [|? ? Hn Hrest]; subst.
    change (joinNames (n :: n' :: rest))
      with (n ++ String "/" (joinNames (n' :: rest)))%string.
    rewrite (SplitOn_cons _ _ Hn). f_equal. now apply IH.
Qed.

Lemma joinNames_snoc (names : list string) (name : string) :
  names <> [] ->
  joinNames (names ++ [name]) = (joinNames names ++ String "/" name)%string.
Proof.
  induction names as [|n [|n' rest] IH]; intros Hne; [done| |].
  - reflexivity.
  - change (joinNames ((n :: n' :: rest) ++ [name]))
      with (n ++ String "/" (joinNames ((n' :: rest) ++ [name])))%string.
    rewrite IH by done.
    change (joinNames (n :: n' :: rest))
      with (n ++ String "/" (joinNames (n' :: rest)))%string.
    rewrite string_app_assoc. now rewrite string_app_cons.
Qed.

Lemma Join_root (root name : string) : Join root name = below root [name].
Proof. reflexivity. Qed.

Lemma Join_below (root : string) (names : list string) (name : string) :
  names <> [] -> Join (below root names) name = below root (names ++ [name]).
Proof.
  intros Hne. unfold below, Join. rewrite (joinNames_snoc _ _ Hne).
  change ("/" ++ joinNames names)%string with (String "/" (joinNames names)).
  change ("/" ++ name)%string with (String "/" name).
  change ("/" ++ (joinNames names ++ String "/" name))%string
    with (String "/" (joinNames names ++ String "/" name)).
  rewrite string_app_assoc. now rewrite string_app_cons.
Qed.

Lemma components_below (root : string) (names : list string) :
  names <> [] -> Forall (fun n => sep_free n = true) names ->
  components root (below root names) = Some names.
Proof.
  intros Hne Hall. unfold components, below.
  rewrite <- string_app_assoc, strip_prefix_app.
  now rewrite SplitOn_joinNames.
Qed.

Lemma components_root (root : string) : components root root = None.
Proof.
  unfold components.
  destruct (strip_prefix (root ++ "/") root) as [rest|] eqn:E; [|done].
  apply strip_prefix_Some in E. exfalso.
  apply (f_equal String.length) in E.
  rewrite !string_length_app in E. simpl in E. lia.
Qed.

(** The shape of a path reached: the root, or names below a root that is
    not hidden, each a file name, all but the last not hidden. *)
Lemma reach_shape (root path : string) :
  reach root path ->
  path = root \/
  exists init l,
    path = below root (init ++ [l]) /\
    Forall (fun n => sep_free n = true) (init ++ [l]) /\
    hidden_name (snd (Split root)) = false /\
    Forall (fun n => hidden_name n = false) init.
Proof.
  induction 1 as [|path name Hr IH Hhid Hname]; [now left|].
  right. destruct IH as [-> | (init & l & -> & Hsf & Hroot & Hinit)].
  - exists [], name. repeat split; auto.
    constructor; [exact Hname | constructor].
  - exists (init ++ [l]), name. rewrite Join_below by (now destruct init).
    repeat split; auto.
    + apply Forall_app; split; auto.
    + apply Forall_app; split; auto. constructor; [|constructor].
      revert Hhid. destruct init as [|i init'].
      * simpl. rewrite <- Join_root, Split_Join_snd; auto.
        now inversion Hsf.
      * change ((i :: init') ++ [l]) with ((i :: init') ++ [l]).
        rewrite <- Join_below by done. rewrite Split_Join_snd; auto.
        apply Forall_app in Hsf as [_ Hl]. now inversion Hl.
Qed.

(** A file reached whose own name is not hidden has no hidden name on
    its path. *)
Lemma reach_not_under_hidden (root path : string) :
  reach root path ->
  hidden_name (snd (Split path)) = false ->
  under_hidden root path = false.
Proof.
  intros Hr Hlast. unfold under_hidden.
  destruct (reach_shape _ _ Hr) as [-> | (init & l & -> & Hsf & Hroot & Hinit)].
  - now rewrite components_root.
  - rewrite components_below; [| now destruct init | exact Hsf].
    rewrite Hroot. simpl. apply not_true_is_false. intros Hex.
    apply existsb_exists in Hex as (n & Hin & Hn).
    apply in_app_or in Hin as [Hin | [<- | []]].
    + rewrite List.Forall_forall in Hinit. now rewrite (Hinit _ Hin) in Hn.
    + revert Hlast. destruct init as [|i init'].
      * simpl. rewrite <- Join_root, Split_Join_snd; [congruence|].
        now inversion Hsf.
      * rewrite <- Join_below by done. rewrite Split_Join_snd; [congruence|].
        apply Forall_app in Hsf as [_ Hl]. now inversion Hl.
Qed.

(** ** An invariant of walks that skip hidden directories *)

Section WalkInvariant.
Context {S : Type} (fn : WalkFunc S) (root : string) (P : S -> Prop).

(** The function keeps [P] on every path reached. *)
Hypothesis fn_keeps :
  forall s path isdir err d,
    reach root path -> P s -> P (fst (fst (fn s path isdir err d))).

(** It lets the walk into a directory only when that is not hidden. *)
Hypothesis fn_descends :
  forall s path d,
    snd (fst (fn s path true None d)) = None ->
    hidden_name (snd (Split path)) = false.

Lemma walkEach_invariant
    (rec : string -> node -> S -> M (S * option error)) path cs :
  Forall (fun c =>
            forall s d, P s -> P (fst (fst (rec (Join path (node_name c)) c s d))))
         cs ->
  forall s d, P s -> P (fst (fst (walkEach rec path cs s d))).
Proof.
  induction 1 as [|c cs Hc _ IH]; intros s d Hs; simpl; [exact Hs|].
  unfold bind. specialize (Hc s d Hs).
  destruct (rec (Join path (node_name c)) c s d) as [[s' e] d']. simpl in *.
  destruct e as [e|]; [|now apply IH].
  destruct (negb (IsDir c) || negb (bool_decide (e = SkipDir)));
    [exact Hc | now apply IH].
Qed.

Lemma walk_invariant n :
  names_ok n = true ->
  forall path s d,
    reach root path -> P s -> P (fst (fst (walk fn path n s d))).
Proof.
  induction n as [name | name l cs IH] using node_rect';
    intros Hok path s d Hreach Hs; simpl.
  - now apply fn_keeps.
  - unfold bind.
    pose proof (fn_keeps s path true
                  (if l then None else Some ErrPermission) d Hreach Hs) as Hk.
    destruct l; simpl in *.
    + pose proof (fn_descends s path d) as Hd.
      destruct (fn s path true None d) as [[s1 e1] d1]. simpl in *.
      destruct e1; [exact Hk|].
      apply walkEach_invariant; [|exact Hk].
      pose proof (proj1 (List.forallb_forall _ _) Hok) as Hok'.
      clear Hok; rename Hok' into Hok. rewrite List.Forall_forall in IH.
      apply List.Forall_forall. intros c Hin s' d' Hs'.
      specialize (Hok c Hin). apply andb_prop in Hok as [Hname Hc].
      apply IH; auto. apply reach_child; auto.
    + destruct (fn s path true (Some ErrPermission) d) as [[s1 e1] d1].
      exact Hk.
Qed.

Lemma Walk_invariant s d :
  names_ok (tree d) = true -> P s -> P (fst (fst (Walk root fn s d))).
Proof.
  intros Hok Hs. unfold Walk.
  pose proof (walk_invariant (tree d) Hok root s d (reach_root root) Hs) as Hw.
  destruct (walk fn root (tree d) s d) as [[s' e] d']. simpl in *.
  now destruct e as [[]|].
Qed.

End WalkInvariant.

(** ** The example platform is a platform *)

Module ExampleFacts.
Import Example.

Lemma pad32_length (b : list byte) : length (pad32 b) = 32.
Proof.
  unfold pad32. rewrite List.length_firstn, List.length_app, List.repeat_length.
  lia.
Qed.

Lemma bytes_pos_bytes (p : positive) : bytes_pos (pos_bytes p) = Some p.
Proof. induction p as [q IH | q IH |]; simpl; now rewrite ?IH. Qed.

Lemma get_put {A : Type} `{Countable A} (a : A) : get (put a) = Ok a.
Proof. unfold get, put. now rewrite bytes_pos_bytes, decode_encode. Qed.

Lemma getProgInfo_putProgInfo (p : ProgInfo) :
  getProgInfo (putProgInfo p) = Ok p.
Proof. unfold getProgInfo, putProgInfo. rewrite get_put. now destruct p. Qed.

End ExampleFacts.

Definition example_platform : Platform := {|
  Sum256 := Example.pad32;
  Sum256_size := ExampleFacts.pad32_length;
  marshalState := Example.put;
  stateMapFromBytes := Example.get;
  stateMap_roundtrip := ExampleFacts.get_put;
  marshalProgInfo := Example.putProgInfo;
  progInfoFromBytes := Example.getProgInfo;
  progInfo_roundtrip := ExampleFacts.getProgInfo_putProgInfo;
  jsonParse := Example.parse
|}.

(** ** Reading and writing one file *)

Lemma os_read_data path d b :
  path <> "" -> files d !! abspath d path = Some (Data b) ->
  os_read path d = (Ok b, d).
Proof.
  intros Hne Hf. unfold os_read.
  destruct (String.eqb_spec path ""); [done|]. now rewrite Hf.
Qed.

Lemma os_read_absent path d :
  files d !! abspath d path = None -> os_read path d = (Err ErrNotExist, d).
Proof.
  intros Hf. unfold os_read. rewrite Hf. now destruct (String.eqb path "").
Qed.

Lemma os_read_denied path d :
  path <> "" -> files d !! abspath d path = Some Denied ->
  os_read path d = (Err ErrPermission, d).
Proof.
  intros Hne Hf. unfold os_read.
  destruct (String.eqb_spec path ""); [done|]. now rewrite Hf.
Qed.

Lemma WriteFile_ok path data d :
  fst (WriteFile path data d) = None ->
  path <> "" /\
  snd (WriteFile path data d)
  = mkDisk (cwd d) (tree d) (<[abspath d path := Data data]> (files d)).
Proof.
  unfold WriteFile. destruct (String.eqb_spec path ""); [discriminate|].
  destruct (files d !! abspath d path) as [[]|]; simpl; try discriminate; auto.
Qed.

Lemma os_read_agree path d d' :
  abspath d' path = abspath d path ->
  files d' !! abspath d path = files d !! abspath d path ->
  fst (os_read path d') = fst (os_read path d).
Proof. intros Ha Hf. unfold os_read. simpl. now rewrite Ha, Hf. Qed.

Lemma os_read_error path d e :
  fst (os_read path d) = Err e -> e = ErrNotExist \/ e = ErrPermission.
Proof.
  unfold os_read. simpl. destruct (String.eqb path ""); [intros [= <-]; auto|].
  destruct (files d !! abspath d path) as [[]|]; intros [= <-]; auto.
Qed.

Lemma os_read_pair path d : os_read path d = (fst (os_read path d), d).
Proof. reflexivity. Qed.

(** A read is not changed by a write to another file. *)
Lemma os_read_other path d key v :
  abspath d path <> key ->
  fst (os_read path (mkDisk (cwd d) (tree d) (<[key := v]> (files d))))
  = fst (os_read path d).
Proof.
  intros Hne. unfold os_read. cbn [fst].
  change (abspath (mkDisk (cwd d) (tree d) (<[key := v]> (files d))) path)
    with (abspath d path).
  cbn [files]. now rewrite lookup_insert_ne by congruence.
Qed.

Lemma os_read_empty d : os_read "" d = (Err ErrNotExist, d).
Proof. reflexivity. Qed.

Lemma WriteFile_cases path data d :
  (fst (WriteFile path data d) = None <->
   path <> "" /\ files d !! abspath d path <> Some Denied) /\
  (fst (WriteFile path data d) <> None -> snd (WriteFile path data d) = d).
Proof.
  unfold WriteFile. destruct (String.eqb_spec path "") as [He|Hne].
  - split; [|reflexivity]. split; [discriminate | intros [Hn _]; contradiction].
  - destruct (files d !! abspath d path) as [[c|]|]; cbn [fst snd].
    + split; [|congruence]. split; [intros _; split; [exact Hne|discriminate]|reflexivity].
    + split; [|reflexivity]. split; [discriminate | intros [_ Hn]; congruence].
    + split; [|congruence]. split; [intros _; split; [exact Hne|discriminate]|reflexivity].
Qed.

#[local] Opaque os_read WriteFile.

(** ** What the three walks collect *)

Section Collect.
Context `{Platform} (m : Manager).

Lemma no_hidden_key_empty {V} root : no_hidden_key (V := V) root ∅.
Proof. intros path _. apply lookup_empty. Qed.

Lemma no_hidden_key_insert {V} root (mp : gmap string V) path v :
  no_hidden_key root mp -> under_hidden root path = false ->
  no_hidden_key root (<[path := v]> mp).
Proof.
  intros Hmp Hpath p Hp. rewrite lookup_insert_ne; [now apply Hmp|].
  intros ->. congruence.
Qed.

Lemma storeState_fn_keeps sm path isdir err d :
  reach (rootDir m) path -> no_hidden_key (rootDir m) sm ->
  no_hidden_key (rootDir m) (fst (fst (storeState_fn m sm path isdir err d))).
Proof.
  intros Hr Hsm. unfold storeState_fn, isHidden, calcChecksum, readFile, bind.
  destruct isdir.
  - now destruct (HasPrefix _ _).
  - destruct (HasPrefix (snd (Split path)) ".") eqn:Hh; [exact Hsm|].
    destruct (os_read path d) as [[c|e] d']; simpl; [|exact Hsm].
    apply no_hidden_key_insert; [exact Hsm|].
    now apply reach_not_under_hidden.
Qed.

Lemma storeState_fn_descends sm path d :
  snd (fst (storeState_fn m sm path true None d)) = None ->
  hidden_name (snd (Split path)) = false.
Proof.
  unfold storeState_fn, isHidden, hidden_name.
  now destruct (HasPrefix (snd (Split path)) ".").
Qed.

Lemma readAll_fn_keeps ch path isdir err d :
  reach (rootDir m) path -> no_hidden_key (rootDir m) ch ->
  no_hidden_key (rootDir m) (fst (fst (readAll_fn m ch path isdir err d))).
Proof.
  intros Hr Hch. unfold readAll_fn, isHidden, bind.
  destruct err; [exact Hch|]. destruct isdir.
  - now destruct (HasPrefix _ _).
  - destruct (HasPrefix (snd (Split path)) ".") eqn:Hh; [exact Hch|].
    destruct (os_read path d) as [[c|e] d']; simpl; [|exact Hch].
    apply no_hidden_key_insert; [exact Hch|].
    now apply reach_not_under_hidden.
Qed.

Lemma readAll_fn_descends ch path d :
  snd (fst (readAll_fn m ch path true None d)) = None ->
  hidden_name (snd (Split path)) = false.
Proof.
  unfold readAll_fn, isHidden, hidden_name.
  now destruct (HasPrefix (snd (Split path)) ".").
Qed.

Lemma GetChanges_fn_keeps st s path isdir err d :
  reach (rootDir m) path -> changes_inv m st s ->
  changes_inv m st (fst (fst (GetChanges_fn m st s path isdir err d))).
Proof.
  intros Hr [Hch Hdel].
  unfold GetChanges_fn, isHidden, calcChecksum, readFile, bind.
  destruct err; [now split|]. destruct isdir.
  - now destruct (HasPrefix _ _).
  - destruct (HasPrefix (snd (Split path)) ".") eqn:Hh; [now split|].
    assert (Hdel' : snd s ∖ {[path]} ⊆ dom st)
      by (intros x [Hx _]%elem_of_difference; now apply Hdel).
    destruct (os_read path d) as [[c|e] d']; simpl; [|now split].
    destruct (bool_decide _); simpl; [|now split].
    destruct (os_read path d') as [[c'|e'] d'']; simpl; [|now split].
    split; simpl; [|exact Hdel'].
    apply no_hidden_key_insert; [exact Hch|].
    now apply reach_not_under_hidden.
Qed.

Lemma GetChanges_fn_descends st s path d :
  snd (fst (GetChanges_fn m st s path true None d)) = None ->
  hidden_name (snd (Split path)) = false.
Proof.
  unfold GetChanges_fn, isHidden, hidden_name.
  now destruct (HasPrefix (snd (Split path)) ".").
Qed.

Lemma snapshot_no_hidden_key d :
  names_ok (tree d) = true -> no_hidden_key (rootDir m) (snapshot m d).
Proof.
  intros Hok. unfold snapshot.
  apply (Walk_invariant (storeState_fn m) (rootDir m)
           (no_hidden_key (rootDir m))); auto.
  - intros; now apply storeState_fn_keeps.
  - apply storeState_fn_descends.
  - apply no_hidden_key_empty.
Qed.

End Collect.

(** ** Writing the snapshot and reading it back *)

Section Snapshot.
Context `{Platform} (m : Manager).

Lemma readonly_storeState_fn sm p b e : readonly (storeState_fn m sm p b e).
Proof.
  unfold storeState_fn.
  repeat first [apply readonly_calcChecksum | readonly_step].
Qed.

(** A successful [storeState] has walked without error and has put the
    encoded snapshot into the state file, changing nothing else. *)
Lemma storeState_ok d :
  fst (storeState m d) = None ->
  snd (fst (Walk (rootDir m) (storeState_fn m) (∅ : stateMap) d)) = None /\
  statePath m <> "" /\
  snd (storeState m d)
  = mkDisk (cwd d) (tree d)
      (<[abspath d (statePath m) := Data (marshalState (snapshot m d))]>
         (files d)).
Proof.
  unfold storeState, snapshot, bind.
  pose proof (readonly_Walk (storeState_fn m) (rootDir m) ∅
                (readonly_storeState_fn) d) as Hro.
  destruct (Walk (rootDir m) (storeState_fn m) ∅ d) as [[sm e] d'].
  simpl in *. subst d'. destruct e; [discriminate|].
  intros [Hne Hd]%WriteFile_ok. auto.
Qed.

Lemma getStoredState_data d sm :
  statePath m <> "" ->
  files d !! abspath d (statePath m) = Some (Data (marshalState sm)) ->
  getStoredState m d = (Ok sm, d).
Proof.
  intros Hne Hf. unfold getStoredState, readFile, bind.
  rewrite (os_read_data _ _ _ Hne Hf). unfold ret.
  now rewrite stateMap_roundtrip.
Qed.

(** [getStoredState] after [storeState] returns the snapshot built. *)
Lemma storeState_getStoredState d :
  fst (storeState m d) = None ->
  fst (getStoredState m (snd (storeState m d))) = Ok (snapshot m d).
Proof.
  intros Hs. destruct (storeState_ok d Hs) as (_ & Hne & ->).
  rewrite (getStoredState_data _ (snapshot m d)); auto.
  unfold abspath at 1. simpl. apply lookup_insert_eq.
Qed.

Lemma getStoredState_snapshot_of d0 d :
  snapshot_of m d0 d -> getStoredState m d = (Ok (snapshot m d0), d).
Proof.
  intros [Hs Hf]. destruct (storeState_ok d0 Hs) as (_ & Hne & _).
  now apply getStoredState_data.
Qed.

End Snapshot.

(** ** Hidden exclusion *)

Section HiddenExclusion.
Context `{Platform} (m : Manager).

Lemma readAll_no_hidden_key d sc :
  names_ok (tree d) = true -> fst (readAll m d) = Ok sc ->
  no_hidden_key (rootDir m) (Changes sc).
Proof.
  intros Hok. unfold readAll, bind.
  pose proof (Walk_invariant (readAll_fn m) (rootDir m)
                (no_hidden_key (rootDir m))
                (fun s p b e d Hr Hs => readAll_fn_keeps m s p b e d Hr Hs)
                (readAll_fn_descends m) ∅ d Hok
                (no_hidden_key_empty (rootDir m))) as Hinv.
  destruct (Walk (rootDir m) (readAll_fn m) ∅ d) as [[ch e] d'].
  simpl in *. destruct e; [discriminate|]. now intros [= <-].
Qed.

Lemma GetChanges_walk_inv d st :
  names_ok (tree d) = true ->
  changes_inv m st
    (fst (fst (Walk (rootDir m) (GetChanges_fn m st) (∅, dom st) d))).
Proof.
  intros Hok.
  apply (Walk_invariant (GetChanges_fn m st) (rootDir m) (changes_inv m st));
    auto.
  - intros; now apply GetChanges_fn_keeps.
  - apply GetChanges_fn_descends.
  - split; [apply no_hidden_key_empty | done].
Qed.

Lemma GetChanges_fn_keeps_hidden st s path isdir err d :
  reach (rootDir m) path -> hidden_kept m st s ->
  hidden_kept m st (fst (fst (GetChanges_fn m st s path isdir err d))).
Proof.
  intros Hr Hk.
  unfold GetChanges_fn, isHidden, calcChecksum, readFile, bind.
  destruct err; [exact Hk|]. destruct isdir.
  - now destruct (HasPrefix _ _).
  - destruct (HasPrefix (snd (Split path)) ".") eqn:Hh; [exact Hk|].
    assert (Hk' : forall ch, hidden_kept m st (ch, snd s ∖ {[path]})).
    { intros ch p Hp Hin. simpl. apply elem_of_difference.
      split; [now apply Hk|]. intros ->%elem_of_singleton.
      rewrite (reach_not_under_hidden _ _ Hr Hh) in Hp. discriminate. }
    destruct (os_read path d) as [[c|e] d']; simpl; [|apply Hk'].
    destruct (bool_decide _); simpl; [|apply Hk'].
    destruct (os_read path d') as [[c'|e'] d'']; simpl; apply Hk'.
Qed.

(** The walk of [GetChanges] takes no hidden path out of the
    deletions. *)
Lemma GetChanges_walk_hidden_kept d st :
  names_ok (tree d) = true ->
  hidden_kept m st
    (fst (fst (Walk (rootDir m) (GetChanges_fn m st) (∅, dom st) d))).
Proof.
  intros Hok.
  apply (Walk_invariant (GetChanges_fn m st) (rootDir m) (hidden_kept m st));
    auto.
  - intros; now apply GetChanges_fn_keeps_hidden.
  - apply GetChanges_fn_descends.
  - now intros p _ Hp.
Qed.

(** On the first run nothing is a deletion. *)
Lemma readAll_no_deletion d sc :
  fst (readAll m d) = Ok sc -> Deletions sc = [].
Proof.
  unfold readAll, bind.
  destruct (Walk (rootDir m) (readAll_fn m) ∅ d) as [[ch e] d'].
  simpl. destruct e; [discriminate|]. now intros [= <-].
Qed.

(** The result of [GetChanges] in terms of the stored state it read. *)
Lemma GetChanges_stored d st :
  getStoredState m d = (Ok st, d) ->
  fst (GetChanges m d)
  = Ok (let s := fst (fst (Walk (rootDir m) (GetChanges_fn m st)
                             (∅, dom st) d)) in
        mkStateChanges (fst s) (elements (snd s))).
Proof.
  intros Hst. unfold GetChanges, bind. rewrite Hst.
  now destruct (Walk (rootDir m) (GetChanges_fn m st) (∅, dom st) d).
Qed.

Lemma GetChanges_no_hidden_key d sc :
  names_ok (tree d) = true -> fst (GetChanges m d) = Ok sc ->
  no_hidden_key (rootDir m) (Changes sc).
Proof.
  intros Hok. unfold GetChanges, bind.
  pose proof (readonly_getStoredState m d) as Hro.
  destruct (getStoredState m d) as [[st|e] d'] eqn:Hst; simpl in Hro; subst d'.
  - pose proof (GetChanges_walk_inv d st Hok) as [Hch _].
    destruct (Walk (rootDir m) (GetChanges_fn m st) (∅, dom st) d)
      as [[s e] d']. simpl in *. now intros [= <-].
  - destruct (bool_decide (e = ErrNotExist)); [|discriminate].
    now apply readAll_no_hidden_key.
Qed.

End HiddenExclusion.

(** C8.  A path below the root with a hidden name on it (a directory
    whose name starts with the marker, the root's own name included, or
    a hidden file name) is no key of the snapshot that [storeState]
    stores and no key of [Changes] in a result of [GetChanges].  It is
    in [Deletions] exactly when the state file that [GetChanges] has
    loaded names it: never on the first run, and never when the state
    file is one that [storeState] wrote.  The names in the trees are
    file names. *)
Theorem hidden_paths_excluded `{Platform} (m : Manager) (d0 d : disk)
    (path : string) :
  names_ok (tree d0) = true ->
  names_ok (tree d) = true ->
  under_hidden (rootDir m) path = true ->
  (forall sm,
      fst (storeState m d0) = None ->
      fst (getStoredState m (snd (storeState m d0))) = Ok sm ->
      sm !! path = None) /\
  (forall sc,
      fst (GetChanges m d) = Ok sc ->
      Changes sc !! path = None /\
      (path ∈ Deletions sc <->
       exists st, fst (getStoredState m d) = Ok st /\ is_Some (st !! path)) /\
      (fst (getStoredState m d) = Err ErrNotExist -> Deletions sc = []) /\
      (snapshot_of m d0 d -> path ∉ Deletions sc)).
Proof.
  intros Hok0 Hok Hpath. split.
  - intros sm Hs. rewrite (storeState_getStoredState m d0 Hs).
    intros [= <-]. now apply snapshot_no_hidden_key.
  - intros sc Hsc. split; [now apply (GetChanges_no_hidden_key m d sc)|].
    pose proof (readonly_getStoredState m d) as Hro.
    destruct (getStoredState m d) as [[st|e] d'] eqn:Hst;
      simpl in Hro; subst d'.
    + pose proof Hsc as Hsc'.
      rewrite (GetChanges_stored m d _ Hst) in Hsc'. injection Hsc' as <-.
      cbn [Deletions fst].
      destruct (GetChanges_walk_inv m d st Hok) as [_ Hsub].
      pose proof (GetChanges_walk_hidden_kept m d st Hok) as Hkept.
      assert (Hiff : path ∈ elements
                       (snd (fst (fst (Walk (rootDir m) (GetChanges_fn m st)
                                         (∅, dom st) d))))
                     <-> exists st', Ok st = Ok st' /\ is_Some (st' !! path)).
      { rewrite elem_of_elements. split.
        - intros Hin. exists st. split; [reflexivity|].
          now apply elem_of_dom, Hsub.
        - intros (st' & [= <-] & Hsome).
          apply Hkept; [exact Hpath | now apply elem_of_dom]. }
      split; [exact Hiff|]. split; [discriminate|].
      intros Hsnap Hin. apply Hiff in Hin as (st' & [= <-] & [v Hv]).
      rewrite (getStoredState_snapshot_of m d0 d Hsnap) in Hst.
      injection Hst as <-.
      rewrite (snapshot_no_hidden_key m d0 Hok0 path Hpath) in Hv.
      discriminate.
    + assert (Hnil : Deletions sc = []).
      { unfold GetChanges, bind in Hsc. rewrite Hst in Hsc.
        destruct (bool_decide (e = ErrNotExist)); [|discriminate].
        now apply (readAll_no_deletion m d). }
      rewrite Hnil. cbn [fst]. split; [|split; [done|]].
      * split; [now intros ?%elem_of_nil | now intros (st & [=] & _)].
      * intros _. apply not_elem_of_nil.
Qed.

Lemma hidden_paths_excluded_witness :
  let m := Scenario.app in
  let P := example_platform in
  let d0 := Scenario.project in
  let d := @Scenario.project_later P in
  let path := "/app/.git/config" in
  (names_ok (tree d0) = true /\ names_ok (tree d) = true /\
   under_hidden (rootDir m) path = true /\ @snapshot_of P m d0 d) /\
  ((forall sm,
       fst (@storeState P m d0) = None ->
       fst (@getStoredState P m (snd (@storeState P m d0))) = Ok sm ->
       sm !! path = None) /\
   (forall sc,
       fst (@GetChanges P m d) = Ok sc ->
       Changes sc !! path = None /\
       (path ∈ Deletions sc <->
        exists st,
          fst (@getStoredState P m d) = Ok st /\ is_Some (st !! path)) /\
       (fst (@getStoredState P m d) = Err ErrNotExist -> Deletions sc = []) /\
       (@snapshot_of P m d0 d -> path ∉ Deletions sc))).
Proof.
  split.
  - repeat split; vm_compute; reflexivity.
  - apply (@hidden_paths_excluded example_platform Scenario.app
             Scenario.project (@Scenario.project_later example_platform)
             "/app/.git/config"); vm_compute; reflexivity.
Defined.

(** C8, where the claim as made fails: the state file names a file
    below a hidden directory.  The walk does not go into that directory,
    so the path stays among the deletions, and [GetChanges] reports the
    hidden file as deleted. *)
Lemma hidden_path_in_Deletions :
  under_hidden (rootDir Scenario.app) "/app/.git/config" = true /\
  names_ok (tree (@Scenario.hidden_in_state example_platform)) = true /\
  fst (@GetChanges example_platform Scenario.app
         (@Scenario.hidden_in_state example_platform))
  = Ok (mkStateChanges
          {[ "/app/a.py" := Scenario.bytes "print(1)";
             "/app/b.py" := Scenario.bytes "print(2)";
             "/app/lib/x.py" := Scenario.bytes "x = 0" ]}
          [ "/app/.git/config" ]).
Proof. repeat split; vm_compute; reflexivity. Qed.

(** ** Clean paths *)

Lemma string_app_inv_tail (a b c : string) :
  (a ++ c)%string = (b ++ c)%string -> a = b.
Proof.
  revert b. induction a as [|x a IH]; intros [|y b] Heq.
  - reflexivity.
  - apply (f_equal String.length) in Heq.
    rewrite string_app_nil, !string_length_app in Heq. simpl in Heq. lia.
  - apply (f_equal String.length) in Heq.
    rewrite string_app_nil, !string_length_app in Heq. simpl in Heq. lia.
  - rewrite !string_app_cons in Heq. injection Heq as -> Heq.
    f_equal. now apply IH.
Qed.

Lemma HasPrefix_slash_Join (root name : string) :
  root <> "" -> HasPrefix (Join root name) "/" = HasPrefix root "/".
Proof.
  intros Hne. destruct root as [|c root]; [done|].
  unfold Join, HasPrefix. rewrite string_app_cons.
  cbn -[ascii_dec String.append].
  destruct (ascii_dec "/" c); [|reflexivity].
  generalize (root ++ "/" ++ name)%string. intros s. now destruct root, s.
Qed.

Lemma SplitOn_not_nil (sep : ascii) (s : string) : SplitOn sep s <> [].
Proof.
  destruct s as [|c s]; [discriminate|]. cbn [SplitOn].
  destruct (Ascii.eqb c sep); [discriminate|].
  destruct (SplitOn sep s); discriminate.
Qed.

(** The fields of a text cut at a separator, joined again, are the
    text. *)
Lemma concat_SplitOn (sep : ascii) (s : string) :
  String.concat (String sep "") (SplitOn sep s) = s.
Proof.
  induction s as [|c s IH]; [reflexivity|]. cbn [SplitOn].
  pose proof (SplitOn_not_nil sep s) as Hne.
  destruct (SplitOn sep s) as [|f fs]; [done|].
  destruct (Ascii.eqb_spec c sep) as [->|Hc].
  - cbn [String.concat]. rewrite string_app_nil, string_app_cons.
    rewrite string_app_nil. f_equal. exact IH.
  - destruct fs as [|g gs]; cbn [String.concat] in *.
    + now subst f.
    + rewrite string_app_cons. f_equal. exact IH.
Qed.

(** Cutting a text that has a separator in it: the fields before, then
    the fields after. *)
Lemma SplitOn_app_sep (sep : ascii) (a b : string) :
  SplitOn sep (a ++ String sep b) = SplitOn sep a ++ SplitOn sep b.
Proof.
  induction a as [|c a IH].
  - rewrite string_app_nil. cbn [SplitOn]. now rewrite Ascii.eqb_refl.
  - rewrite string_app_cons. cbn [SplitOn]. rewrite IH.
    destruct (Ascii.eqb c sep); [reflexivity|].
    pose proof (SplitOn_not_nil sep a) as Hne.
    now destruct (SplitOn sep a).
Qed.

Lemma SplitOn_Join (dir name : string) :
  sep_free name = true ->
  SplitOn "/" (Join dir name) = SplitOn "/" dir ++ [name].
Proof.
  intros Hn. unfold Join.
  change ("/" ++ name)%string with (String "/" name).
  now rewrite SplitOn_app_sep, (SplitOn_sep_free name Hn).
Qed.

Lemma plain_name_sep_free n : plain_name n = true -> sep_free n = true.
Proof. unfold plain_name. now intros [_ ?]%andb_prop. Qed.

Lemma clean_step_plain rooted out n :
  plain_name n = true -> clean_step rooted out n = n :: out.
Proof.
  unfold plain_name, clean_step.
  intros [[[H1 H2]%andb_prop H3]%andb_prop _]%andb_prop.
  apply negb_true_iff in H1, H2, H3. now rewrite H1, H2, H3.
Qed.

Lemma clean_plain_names rooted names out :
  forallb plain_name names = true ->
  fold_left (clean_step rooted) names out = rev names ++ out.
Proof.
  revert out. induction names as [|n names IH]; intros out; [reflexivity|].
  cbn [forallb fold_left]. intros [Hn Hns]%andb_prop.
  rewrite (clean_step_plain _ _ _ Hn), (IH _ Hns). cbn [rev].
  now rewrite <- app_assoc.
Qed.

Lemma concat_snoc (names : list string) (name : string) :
  names <> [] ->
  String.concat "/" (names ++ [name])
  = (String.concat "/" names ++ "/" ++ name)%string.
Proof.
  induction names as [|n names IH]; [done|]. intros _.
  destruct names as [|n' names].
  - reflexivity.
  - change ((n :: n' :: names) ++ [name]) with (n :: (n' :: names) ++ [name]).
    cbn [String.concat app] in *. rewrite IH by done.
    now rewrite !string_app_assoc.
Qed.

Lemma HasPrefix_SplitOn (s : string) :
  HasPrefix s "/" = true -> exists fs, SplitOn "/" s = "" :: fs.
Proof.
  destruct s as [|c s]; [discriminate|].
  unfold HasPrefix. cbn -[ascii_dec].
  destruct (ascii_dec "/" c) as [<-|]; [|discriminate].
  intros _. cbn [SplitOn]. rewrite Ascii.eqb_refl. eauto.
Qed.

Lemma SplitOn_HasPrefix (s : string) f fs :
  SplitOn "/" s = "" :: f :: fs -> HasPrefix s "/" = true.
Proof.
  destruct s as [|c s]; [discriminate|]. cbn [SplitOn].
  destruct (Ascii.eqb_spec c "/") as [->|Hc].
  - intros _. unfold HasPrefix. cbn -[ascii_dec].
    destruct (ascii_dec "/" "/"); [|done].
    now destruct s.
  - destruct (SplitOn "/" s); discriminate.
Qed.

(** The two shapes of a plain path. *)
Lemma plain_path_cases (p : string) :
  plain_path p = true ->
  (HasPrefix p "/" = true /\
   exists names, names <> [] /\ SplitOn "/" p = "" :: names /\
                 forallb plain_name names = true) \/
  (HasPrefix p "/" = false /\ forallb plain_name (SplitOn "/" p) = true).
Proof.
  unfold plain_path. intros Hp.
  destruct (SplitOn "/" p) as [|f fs] eqn:E;
    [now destruct (SplitOn_not_nil "/" p)|].
  destruct (String.eqb_spec f "") as [->|Hf].
  - destruct fs as [|g gs]; [discriminate|]. left. split.
    + now apply (SplitOn_HasPrefix p g gs).
    + exists (g :: gs). auto.
  - right. split.
    + destruct (HasPrefix p "/") eqn:Hpre; [|reflexivity].
      destruct (HasPrefix_SplitOn p Hpre) as [fs' E']. congruence.
    + destruct f; [done | exact Hp].
Qed.

Lemma plain_path_nonempty (p : string) : plain_path p = true -> p <> "".
Proof. now intros Hp ->. Qed.

(** On a plain directory path and a name proper, [filepath.Join] is
    concatenation around one separator. *)
Lemma Join_plain (dir name : string) :
  plain_path dir = true -> plain_name name = true ->
  filepath_Join dir name = Join dir name.
Proof.
  intros Hd Hn. pose proof (plain_path_nonempty dir Hd) as Hne.
  unfold filepath_Join. destruct (String.eqb_spec dir ""); [done|].
  cbn [negb]. fold (Join dir name). unfold Clean.
  rewrite (HasPrefix_slash_Join dir name Hne).
  rewrite (SplitOn_Join dir name (plain_name_sep_free name Hn)).
  pose proof (concat_SplitOn "/" dir) as Hdir.
  destruct (plain_path_cases dir Hd)
    as [[Hpre (names & Hnil & E & Hpl)] | [Hpre Hpl]]; rewrite Hpre.
  - rewrite E in *. cbn [app fold_left].
    change (clean_step true [] "") with (@nil string).
    rewrite clean_plain_names
      by (rewrite forallb_app, Hpl; cbn; now rewrite Hn).
    rewrite app_nil_r, rev_involutive, (concat_snoc names name Hnil).
    unfold Join. rewrite <- Hdir.
    destruct names as [|g gs]; [done|]. cbn [String.concat].
    rewrite string_app_nil. now rewrite !string_app_assoc.
  - rewrite clean_plain_names
      by (rewrite forallb_app, Hpl; cbn; now rewrite Hn).
    rewrite app_nil_r, rev_involutive.
    rewrite (concat_snoc _ name (SplitOn_not_nil "/" dir)), Hdir.
    pose proof (SplitOn_not_nil "/" dir) as Hnn.
    destruct (SplitOn "/" dir ++ [name]) eqn:E; [|reflexivity].
    now apply app_eq_nil in E as [? _].
Qed.

Lemma plain_path_Join (dir name : string) :
  plain_path dir = true -> plain_name name = true ->
  plain_path (Join dir name) = true.
Proof.
  intros Hd Hn. unfold plain_path.
  rewrite (SplitOn_Join dir name (plain_name_sep_free name Hn)).
  destruct (plain_path_cases dir Hd)
    as [[Hpre (names & Hnil & E & Hpl)] | [Hpre Hpl]].
  - rewrite E. destruct names as [|g gs]; [done|]. cbn [app].
    change (g :: gs ++ [name]) with ((g :: gs) ++ [name]).
    rewrite forallb_app, Hpl. cbn. now rewrite Hn.
  - assert (Hall : forallb plain_name (SplitOn "/" dir ++ [name]) = true)
      by (rewrite forallb_app, Hpl; cbn; now rewrite Hn).
    pose proof (SplitOn_not_nil "/" dir) as Hnn.
    destruct (SplitOn "/" dir) as [|f fs]; [done|].
    cbn [app] in *. destruct f; [discriminate|]. exact Hall.
Qed.

(** [filepath.Clean] and [filepath.Join] on paths that are not plain. *)
Example Clean_examples :
  Clean "" = "." /\ Clean "/" = "/" /\ Clean "/app/" = "/app" /\
  Clean "a//b/./c" = "a/b/c" /\ Clean "a/b/.." = "a" /\
  Clean "a/../.." = ".." /\ Clean "/../a" = "/a" /\
  filepath_Join "/app/" ".deta" = "/app/.deta" /\
  filepath_Join "." ".deta" = ".deta" /\
  filepath_Join "/" "x" = "/x" /\
  filepath_Join "" "x" = "x".
Proof. repeat split; vm_compute; reflexivity. Qed.

(** ** Where [readDeps] looks for the manifest *)

Section Manifest.
Context `{Platform}.

Lemma depFiles_relative r :
  r = Python \/ r = Node -> HasPrefix (depFiles r) "/" = false.
Proof. now intros [-> | ->]. Qed.

(** The manifest under the root is another file than the one opened,
    unless the root is the working directory. *)
Lemma manifest_path_differs (d : disk) (root file : string) :
  root <> "" -> abspath d root <> cwd d ->
  Join (cwd d) file <> abspath d (Join root file).
Proof.
  intros Hne Hcwd. unfold abspath in *.
  rewrite (HasPrefix_slash_Join root file Hne).
  destruct (HasPrefix root "/").
  - unfold Join. intros Heq. apply string_app_inv_tail in Heq. congruence.
  - unfold Join. intros Heq. apply String.app_inj in Heq.
    change ("/" ++ file)%string with (String "/" file) in Heq.
    change ("/" ++ root ++ "/" ++ file)%string
      with (String "/" (root ++ String "/" file)) in Heq.
    injection Heq as Heq. apply (f_equal String.length) in Heq.
    rewrite !string_length_app in Heq. simpl in Heq. lia.
Qed.

(** What [readDeps] returns is decided by the file it opens. *)
Lemma readDeps_determined (m m' : Manager) (r : string) (d d' : disk) :
  fst (os_read (depFiles r) d') = fst (os_read (depFiles r) d) ->
  fst (readDeps m' r d') = fst (readDeps m r d).
Proof.
  unfold readDeps, readFile, bind.
  pose proof (readonly_os_read (depFiles r) d) as Hd.
  pose proof (readonly_os_read (depFiles r) d') as Hd'.
  destruct (os_read (depFiles r) d) as [x e].
  destruct (os_read (depFiles r) d') as [x' e']. simpl in *.
  intros ->. destruct x as [c|err]; [|now destruct (bool_decide _)].
  now destruct (String.eqb r Python), (String.eqb r Node).
Qed.

End Manifest.

(** C10.  [readDeps] opens the bare name from [depFiles], which is
    resolved against the working directory, while the state file and the
    program info file are joined under the root.  What it returns is
    read off the file of that name in the working directory: its lines
    or its dependencies when it can be read, the error when it cannot
    be opened, the empty list when there is none.  When the root is
    another directory than the working directory, that file is not the
    manifest under the root, and the manifest under the root has no
    part in the result.  The root and the working directory are given
    as clean paths of names proper, the working directory as an
    absolute one. *)
Theorem readDeps_opens_bare_name `{Platform} (root r : string) (d : disk) :
  r = Python \/ r = Node ->
  plain_path root = true ->
  plain_path (cwd d) = true ->
  HasPrefix (cwd d) "/" = true ->
  abspath d root <> cwd d ->
  let m := NewManager root in
  let opened := filepath_Join (cwd d) (depFiles r) in
  let manifest := abspath d (filepath_Join root (depFiles r)) in
  statePath m = filepath_Join (filepath_Join root detaDir) stateFile /\
  progInfoPath m = filepath_Join (filepath_Join root detaDir) progInfoFile /\
  abspath d (depFiles r) = opened /\
  fst (readDeps m r d)
  = match files d !! opened with
    | Some (Data contents) =>
        if String.eqb r Python
        then Ok (SplitOn "010" (string_of_bytes contents))
        else nodeDeps contents
    | Some Denied => Err ErrPermission
    | None => Ok []
    end /\
  opened <> manifest /\
  (forall x,
      fst (readDeps m r
             (mkDisk (cwd d) (tree d) (<[manifest := x]> (files d))))
      = fst (readDeps m r d)) /\
  (forall d',
      cwd d' = cwd d -> files d' !! opened = files d !! opened ->
      fst (readDeps m r d') = fst (readDeps m r d)).
Proof.
  intros Hr Hroot Hcwd Habs Hne m opened manifest.
  assert (Hdep : plain_name (depFiles r) = true)
    by (destruct Hr as [-> | ->]; reflexivity).
  assert (Hdeta : plain_path (Join root detaDir) = true)
    by now apply plain_path_Join.
  assert (Hopened : opened = Join (cwd d) (depFiles r))
    by now apply Join_plain.
  assert (Hmanifest : manifest = abspath d (Join root (depFiles r)))
    by (unfold manifest; now rewrite Join_plain).
  clearbody opened manifest. subst opened manifest.
  rewrite (Join_plain root detaDir Hroot eq_refl).
  rewrite !(Join_plain (Join root detaDir)) by (exact Hdeta || reflexivity).
  assert (Hnonempty : root <> "") by now apply plain_path_nonempty.
  assert (Hopen : abspath d (depFiles r) = Join (cwd d) (depFiles r)).
  { unfold abspath. now rewrite (depFiles_relative r Hr). }
  assert (Hname : depFiles r <> "") by (destruct Hr as [-> | ->]; discriminate).
  assert (Hdiff : Join (cwd d) (depFiles r)
                  <> abspath d (Join root (depFiles r)))
    by now apply manifest_path_differs.
  assert (Hagree : forall d',
             cwd d' = cwd d ->
             files d' !! Join (cwd d) (depFiles r)
             = files d !! Join (cwd d) (depFiles r) ->
             fst (readDeps m r d') = fst (readDeps m r d)).
  { intros d' Hc Hf. apply readDeps_determined. apply os_read_agree.
    - unfold abspath. now rewrite Hc.
    - now rewrite Hopen. }
  split; [reflexivity|]. split; [reflexivity|]. split; [exact Hopen|].
  split; [|split; [exact Hdiff|]].
  - unfold readDeps, readFile, bind. rewrite <- Hopen.
    destruct (files d !! abspath d (depFiles r)) as [[c|]|] eqn:Hf.
    + rewrite (os_read_data _ _ _ Hname Hf).
      destruct Hr as [-> | ->]; reflexivity.
    + now rewrite (os_read_denied _ _ Hname Hf).
    + now rewrite (os_read_absent _ _ Hf).
  - split; [|exact Hagree]. intros x. apply Hagree; [reflexivity|].
    cbn [files]. now apply lookup_insert_ne.
Qed.

Lemma readDeps_opens_bare_name_witness :
  let P := example_platform in
  let d := Scenario.run_from_subdir in
  let m := NewManager "/app" in
  let opened := "/app/sub/requirements.txt" in
  let manifest := "/app/requirements.txt" in
  (plain_path "/app" = true /\ plain_path (cwd d) = true /\
   HasPrefix (cwd d) "/" = true /\
   String.eqb (abspath d "/app") (cwd d) = false) /\
  (statePath m = "/app/.deta/state" /\
   progInfoPath m = "/app/.deta/progInfo" /\
   abspath d (depFiles Python) = opened /\
   fst (@readDeps P m Python d) = Ok ["django"] /\
   opened <> manifest /\
   (forall x,
       fst (@readDeps P m Python
              (mkDisk (cwd d) (tree d) (<[manifest := x]> (files d))))
       = fst (@readDeps P m Python d)) /\
   (forall d',
       cwd d' = cwd d -> files d' !! opened = files d !! opened ->
       fst (@readDeps P m Python d') = fst (@readDeps P m Python d))).
Proof.
  split; [repeat split; vm_compute; reflexivity|].
  apply (@readDeps_opens_bare_name example_platform "/app" Python
           Scenario.run_from_subdir).
  - left; reflexivity.
  - vm_compute; reflexivity.
  - vm_compute; reflexivity.
  - vm_compute; reflexivity.
  - vm_compute; discriminate.
Defined.

(** C10, where the claim as made fails: the working directory is a
    directory below the root, and it holds a file of the manifest's
    name.  The root is not the working directory, and the dependency
    diff finds a manifest and reads it inside the project root; it is
    not the manifest at the root. *)
Lemma readDeps_reads_below_root :
  let P := example_platform in
  let d := Scenario.run_from_subdir in
  let m := NewManager "/app" in
  String.eqb (abspath d (rootDir m)) (cwd d) = false /\
  abspath d (depFiles Python) = "/app/sub/requirements.txt" /\
  components (rootDir m) (abspath d (depFiles Python))
  = Some ["sub"; "requirements.txt"] /\
  files d !! "/app/requirements.txt" = Some (Data (Scenario.bytes "flask")) /\
  fst (@readDeps P m Python d) = Ok ["django"] /\
  fst (@GetDepChanges P m d) = Ok (mkDepChanges ["django"] []).
Proof. repeat split; vm_compute; reflexivity. Qed.

(** ** Runtime resolution *)

Lemma scan_app s rs1 rs2 :
  scan s (rs1 ++ rs2)
  = match snd (scan s rs1) with
    | None => scan (fst (scan s rs1)) rs2
    | Some e => scan s rs1
    end.
Proof.
  revert s. induction rs1 as [|r rs1 IH]; intros s; simpl; [reflexivity|].
  destruct (snd s); [reflexivity | apply IH].
Qed.

Lemma scan_error s rs e : snd (scan s rs) = Some e -> e = conflicting.
Proof.
  revert s. induction rs as [|r rs IH]; intros s; simpl; [discriminate|].
  destruct (snd s); [now intros [= <-] | apply IH].
Qed.

Lemma walkEach_GetRuntime path cs :
  Forall (fun c => forall p s d,
            walk GetRuntime_fn p c s d = (scan s (entryRuntimes p c), d)) cs ->
  forall s d,
    walkEach (walk GetRuntime_fn) path cs s d
    = (scan s (flat_map (fun c => entryRuntimes (Join path (node_name c)) c) cs),
       d).
Proof.
  induction 1 as [|c cs Hc _ IH]; intros s d; simpl; [reflexivity|].
  unfold bind. rewrite Hc, scan_app.
  destruct (scan s (entryRuntimes (Join path (node_name c)) c))
    as [s' [e|]] eqn:Hscan; simpl.
  - assert (e = conflicting) as ->
      by (apply (scan_error s (entryRuntimes (Join path (node_name c)) c));
          now rewrite Hscan).
    now rewrite orb_true_r.
  - apply IH.
Qed.

Lemma walk_GetRuntime n :
  forall path s d,
    walk GetRuntime_fn path n s d = (scan s (entryRuntimes path n), d).
Proof.
  induction n as [name | name l cs IH] using node_rect'; intros path s d.
  - simpl. unfold GetRuntime_fn.
    destruct (entryPoints (snd (Split path))) as [r|]; simpl; [|reflexivity].
    now destruct (snd s).
  - simpl. unfold bind, GetRuntime_fn at 1, ret.
    destruct l; simpl; [|reflexivity].
    now apply walkEach_GetRuntime.
Qed.

(** [GetRuntime] by the entrypoint files in the tree. *)
Lemma GetRuntime_cases (m : Manager) (d : disk) :
  fst (GetRuntime m d)
  = match entryRuntimes (rootDir m) (tree d) with
    | [] => Err (unsupported (rootDir m))
    | [r] => Ok r
    | _ :: _ :: _ => Err conflicting
    end.
Proof.
  unfold GetRuntime, Walk, bind. rewrite walk_GetRuntime.
  destruct (entryRuntimes (rootDir m) (tree d)) as [|r [|r' rs]]; reflexivity.
Qed.

Lemma conflicting_not_unsupported root : conflicting <> unsupported root.
Proof. unfold conflicting, unsupported. rewrite string_app_cons. discriminate. Qed.

(** C5, as the code has it.  [GetRuntime] fails with the conflict error
    exactly when the walk finds two or more entrypoint files, of
    whichever runtimes; it fails with the error of no supported runtime
    exactly when it finds none; and it returns a runtime exactly when it
    finds one entrypoint file, that file's runtime. *)
Theorem GetRuntime_failures (m : Manager) (d : disk) :
  let rs := entryRuntimes (rootDir m) (tree d) in
  (fst (GetRuntime m d) = Err conflicting <-> 2 <= length rs) /\
  (fst (GetRuntime m d) = Err (unsupported (rootDir m)) <-> rs = []) /\
  (forall r, fst (GetRuntime m d) = Ok r <-> rs = [r]).
Proof.
  intros rs. rewrite GetRuntime_cases. fold rs.
  pose proof (conflicting_not_unsupported (rootDir m)) as Hne.
  destruct rs as [|r [|r' rest]]; simpl; repeat split;
    try discriminate; try congruence; try lia; intros; try congruence.
Qed.

(** C5, as stated, fails: two [main.py] files in two directories are
    entrypoints of one runtime only, and [GetRuntime] reports a
    conflict. *)
Lemma GetRuntime_same_runtime_conflict :
  fst (GetRuntime Scenario.app Scenario.two_mains) = Err conflicting /\
  entryRuntimes "/app" (tree Scenario.two_mains) = [Python; Python].
Proof. split; vm_compute; reflexivity. Qed.

(** ** The dependency diff *)

#[local] Set Warnings "-clear-no-such-hyp".

Lemma depDiff_fold_present (deps : list string) (R : gset string) :
  NoDup deps -> (forall x, x ∈ deps -> x ∈ R) ->
  fold_left depDiff_step deps ([], R) = ([], R ∖ list_to_set deps).
Proof.
  revert R. induction deps as [|x deps IH]; intros R Hnd Hin; simpl.
  - f_equal. set_solver.
  - apply NoDup_cons in Hnd as [Hx Hnd].
    unfold depDiff_step at 2. simpl.
    rewrite bool_decide_eq_true_2 by (apply Hin; left).
    rewrite IH; [f_equal; set_solver | exact Hnd |].
    intros y Hy. apply elem_of_difference. split; [apply Hin; now right|].
    intros ->%elem_of_singleton. contradiction.
Qed.

(** Equal sets and no repeated identifier in the current list: nothing
    added, nothing removed. *)
Lemma depDiff_same_set (stored deps : list string) :
  NoDup deps -> (forall x, x ∈ deps <-> x ∈ stored) ->
  depDiff stored deps = mkDepChanges [] [].
Proof.
  intros Hnd Hsame. unfold depDiff.
  rewrite depDiff_fold_present; auto.
  - simpl. f_equal. apply elements_empty_iff.
    intros x. rewrite elem_of_difference, !elem_of_list_to_set, Hsame.
    split; [tauto | intros []%elem_of_empty].
  - intros x Hx. apply elem_of_list_to_set. now apply Hsame.
Qed.

(** A current identifier that is stored and comes a second time is
    reported as added. *)
Lemma depDiff_repeated (x : string) :
  depDiff [x] [x; x] = mkDepChanges [x] [].
Proof.
  pose (R := ({[x]} ∪ ∅ : gset string)).
  assert (H1 : depDiff_step ([], R) x = ([], R ∖ {[x]})).
  { unfold depDiff_step. cbn [fst snd].
    rewrite bool_decide_eq_true_2; [reflexivity|].
    apply elem_of_union_l, elem_of_singleton. reflexivity. }
  assert (H2 : depDiff_step ([], R ∖ {[x]}) x = ([x], R ∖ {[x]})).
  { unfold depDiff_step. cbn [fst snd].
    rewrite bool_decide_eq_false_2; [reflexivity|].
    intros [_ Hn]%elem_of_difference. apply Hn, elem_of_singleton.
    reflexivity. }
  unfold depDiff. cbn [fold_left list_to_set foldr]. fold R.
  rewrite H1, H2. cbn [fst snd]. f_equal. apply elements_empty_iff.
  intros y. split; [|intros []%elem_of_empty].
  intros [Hy Hn]%elem_of_difference.
  apply elem_of_union in Hy as [Hy|Hy]; [contradiction|].
  now apply elem_of_empty in Hy.
Qed.

Section DepChanges.
Context `{Platform} (m : Manager).

Lemma GetProgInfo_data d p :
  progInfoPath m <> "" ->
  files d !! abspath d (progInfoPath m) = Some (Data (marshalProgInfo p)) ->
  GetProgInfo m d = ((Some p, None), d).
Proof.
  intros Hne Hf. unfold GetProgInfo, readFile, bind.
  rewrite (os_read_data _ _ _ Hne Hf). now rewrite progInfo_roundtrip.
Qed.

Lemma readDeps_python d contents :
  files d !! abspath d "requirements.txt" = Some (Data contents) ->
  readDeps m Python d = (Ok (SplitOn "010" (string_of_bytes contents)), d).
Proof.
  intros Hf. unfold readDeps, readFile, bind.
  change (depFiles Python) with "requirements.txt".
  assert (Hne : "requirements.txt" <> "") by discriminate.
  now rewrite (os_read_data _ _ _ Hne Hf).
Qed.

Lemma readDeps_node d contents :
  files d !! abspath d "package.json" = Some (Data contents) ->
  readDeps m Node d = (nodeDeps contents, d).
Proof.
  intros Hf. unfold readDeps, readFile, bind.
  change (depFiles Node) with "package.json".
  assert (Hne : "package.json" <> "") by discriminate.
  now rewrite (os_read_data _ _ _ Hne Hf).
Qed.

(** With a dependency list stored, [GetDepChanges] is the diff of the
    stored list and the manifest. *)
Lemma GetDepChanges_stored d p deps :
  GetProgInfo m d = ((Some p, None), d) ->
  Deps p <> [] ->
  readDeps m (Runtime p) d = (Ok deps, d) ->
  fst (GetDepChanges m d) = Ok (depDiff (Deps p) deps).
Proof.
  intros Hp Hdeps Hr. unfold GetDepChanges, bind. rewrite Hp. simpl.
  destruct (Deps p) as [|x l] eqn:E; [done|]. simpl. now rewrite Hr.
Qed.

End DepChanges.

(** C7, at the input on which it fails.  The manifest names [flask]
    twice and [flask] is the stored list: the two lists are equal as
    sets, and [GetDepChanges] reports [flask] as added. *)
Theorem GetDepChanges_repeated_identifier `{Platform} :
  fst (GetDepChanges Scenario.app Scenario.repeated_dep)
  = Ok (mkDepChanges ["flask"] []).
Proof.
  rewrite (GetDepChanges_stored Scenario.app Scenario.repeated_dep
             (mkProgInfo Python ["flask"]) ["flask"; "flask"]).
  - simpl. now rewrite depDiff_repeated.
  - apply GetProgInfo_data; [discriminate | reflexivity].
  - discriminate.
  - cbn [Runtime]. erewrite readDeps_python by reflexivity. reflexivity.
Qed.

(** ** The Node manifest *)

Lemma member_to_iface (key : string) (members : list (string * json)) :
  member key (List.map (fun kv => (fst kv, to_iface (snd kv))) members)
  = option_map to_iface (member key members).
Proof.
  induction members as [|[k v] rest IH]; simpl; [reflexivity|].
  rewrite IH. destruct (member key rest); simpl; [reflexivity|].
  now destruct (String.eqb k key).
Qed.

(** Decoding into an [interface{}] never yields a [map[string]string]. *)
Lemma type_string_to_iface (j : json) :
  type_string (to_iface j) <> Some "map[string]string".
Proof. destruct j; simpl; discriminate. Qed.

Section NodeManifest.
Context `{Platform}.

Lemma nodeDeps_object contents members deps :
  jsonParse contents = Ok (JObject members) ->
  member "dependencies" members = Some (JObject deps) ->
  nodeDeps contents = Err unexpected_format.
Proof.
  intros Hparse Hmem. unfold nodeDeps, unmarshalMap. rewrite Hparse.
  now rewrite member_to_iface, Hmem.
Qed.

(** The Node case returns no identifier, whatever the manifest. *)
Lemma nodeDeps_never_lists contents l :
  nodeDeps contents = Ok l -> l = [].
Proof.
  unfold nodeDeps, unmarshalMap.
  destruct (jsonParse contents) as [[| | | | |members]|e]; try discriminate.
  - simpl. now intros [= <-].
  - rewrite member_to_iface.
    destruct (member "dependencies" members) as [j|]; simpl;
      [|now intros [= <-]].
    pose proof (type_string_to_iface j) as Hty.
    destruct (type_string (to_iface j)) as [t|]; [|discriminate].
    destruct (String.eqb_spec t "map[string]string") as [->|];
      [congruence | discriminate].
Qed.

Lemma GetDepChanges_readDeps_error (m : Manager) d p e :
  GetProgInfo m d = ((Some p, None), d) ->
  Deps p <> [] ->
  readDeps m (Runtime p) d = (Err e, d) ->
  fst (GetDepChanges m d) = Err e.
Proof.
  intros Hp Hdeps Hr. unfold GetDepChanges, bind. rewrite Hp. simpl.
  destruct (Deps p) as [|x l] eqn:E; [done|]. simpl. now rewrite Hr.
Qed.

End NodeManifest.

(** C3, where it fails.  For every Node manifest that parses to an
    object whose [dependencies] member is an object, a flat mapping of
    strings to strings included, [readDeps] returns the error of an
    unexpected format and no identifiers. *)
Theorem readDeps_node_rejects_mapping `{Platform} (m : Manager) (d : disk)
    (contents : list byte) (members deps : list (string * json)) :
  files d !! abspath d "package.json" = Some (Data contents) ->
  jsonParse contents = Ok (JObject members) ->
  member "dependencies" members = Some (JObject deps) ->
  fst (readDeps m Node d) = Err unexpected_format.
Proof.
  intros Hf Hparse Hmem. rewrite (readDeps_node m d contents Hf). simpl.
  now apply (nodeDeps_object contents members deps).
Qed.

Lemma readDeps_node_rejects_mapping_witness :
  fst (@readDeps example_platform Scenario.app Node
         (@Scenario.node_project example_platform))
  = Err unexpected_format /\
  @jsonParse example_platform (Scenario.bytes Scenario.package_json)
  = Ok Scenario.package_json_parsed.
Proof.
  split; [|vm_compute; reflexivity].
  apply (@readDeps_node_rejects_mapping example_platform Scenario.app
           (@Scenario.node_project example_platform)
           (Scenario.bytes Scenario.package_json)
           [("dependencies",
             JObject [("flask", JString "1.0"); ("requests", JString "2.0")])]
           [("flask", JString "1.0"); ("requests", JString "2.0")]);
    vm_compute; reflexivity.
Defined.

(** The scenario of C3 through [GetDepChanges]: with [flask@1.0] stored,
    the result is the error, not one added identifier. *)
Lemma GetDepChanges_node_scenario `{Platform} :
  jsonParse (Scenario.bytes Scenario.package_json)
  = Ok Scenario.package_json_parsed ->
  fst (GetDepChanges Scenario.app Scenario.node_project)
  = Err unexpected_format.
Proof.
  intros Hparse.
  apply (GetDepChanges_readDeps_error Scenario.app Scenario.node_project
           (mkProgInfo Node ["flask@1.0"])).
  - apply GetProgInfo_data; [discriminate | reflexivity].
  - discriminate.
  - cbn [Runtime]. erewrite readDeps_node by reflexivity. f_equal.
    eapply nodeDeps_object; [exact Hparse | reflexivity].
Qed.

(** ** A program info file that does not load *)

Lemma readonly_GetRuntime (m : Manager) : readonly (GetRuntime m).
Proof.
  intros d. unfold GetRuntime, Walk, bind. rewrite walk_GetRuntime.
  destruct (scan ("", false) (entryRuntimes (rootDir m) (tree d)))
    as [[rt found] [[]|]]; simpl; try reflexivity;
    now destruct found.
Qed.

Section ProgInfoError.
Context `{Platform} (m : Manager).

Lemma readonly_GetProgInfo : readonly (GetProgInfo m).
Proof.
  unfold GetProgInfo. apply readonly_bind; [apply readonly_readFile|].
  intros [c|e].
  - destruct (progInfoFromBytes c); apply readonly_ret.
  - destruct (bool_decide (e = ErrNotExist)); apply readonly_ret.
Qed.

Lemma readonly_readDeps r : readonly (readDeps m r).
Proof.
  unfold readDeps. apply readonly_bind; [apply readonly_readFile|].
  intros [c|e]; repeat readonly_step.
Qed.

Lemma GetProgInfo_corrupt d contents e :
  progInfoPath m <> "" ->
  files d !! abspath d (progInfoPath m) = Some (Data contents) ->
  progInfoFromBytes contents = Err e ->
  fst (GetProgInfo m d) = (None, Some e).
Proof.
  intros Hne Hf Hbad. unfold GetProgInfo, readFile, bind.
  rewrite (os_read_data _ _ _ Hne Hf). now rewrite Hbad.
Qed.

Lemma GetProgInfo_denied d :
  progInfoPath m <> "" ->
  files d !! abspath d (progInfoPath m) = Some Denied ->
  fst (GetProgInfo m d) = (None, Some ErrPermission).
Proof.
  intros Hne Hf. unfold GetProgInfo, readFile, bind.
  now rewrite (os_read_denied _ _ Hne Hf).
Qed.

(** [GetDepChanges] tests the pointer only: an error of [GetProgInfo]
    is handled as the first run is. *)
Lemma GetDepChanges_error_as_first_run d e r deps :
  fst (GetProgInfo m d) = (None, Some e) ->
  fst (GetRuntime m d) = Ok r ->
  fst (readDeps m r d) = Ok deps ->
  fst (GetDepChanges m d) = Ok (mkDepChanges deps []).
Proof.
  intros Hp Hr Hd. unfold GetDepChanges, bind.
  pose proof (readonly_GetProgInfo d) as H1.
  destruct (GetProgInfo m d) as [pe d1]. simpl in *. subst d1 pe. simpl.
  pose proof (readonly_GetRuntime m d) as H2.
  destruct (GetRuntime m d) as [rt d2]. simpl in *. subst d2 rt.
  pose proof (readonly_readDeps r d) as H3.
  destruct (readDeps m r d) as [ds d3]. simpl in *. now subst d3 ds.
Qed.

End ProgInfoError.

(** C4, where it fails.  When the program info file holds bytes that do
    not parse, [GetProgInfo] returns the error, and [GetDepChanges],
    with a runtime found and a manifest read, returns every current
    identifier as added and no error. *)
Theorem GetDepChanges_drops_progInfo_error `{Platform} (m : Manager)
    (d : disk) (contents : list byte) (e : error) (r : string)
    (deps : list string) :
  progInfoPath m <> "" ->
  files d !! abspath d (progInfoPath m) = Some (Data contents) ->
  progInfoFromBytes contents = Err e ->
  fst (GetRuntime m d) = Ok r ->
  fst (readDeps m r d) = Ok deps ->
  fst (GetProgInfo m d) = (None, Some e) /\
  fst (GetDepChanges m d) = Ok (mkDepChanges deps []).
Proof.
  intros Hne Hf Hbad Hr Hd.
  pose proof (GetProgInfo_corrupt m d contents e Hne Hf Hbad) as Hp.
  split; [exact Hp|]. now apply (GetDepChanges_error_as_first_run m d e r).
Qed.

Lemma GetDepChanges_drops_progInfo_error_witness :
  fst (@GetProgInfo example_platform Scenario.app Scenario.corrupt_info)
  = (None, Some ErrSyntax) /\
  fst (@GetDepChanges example_platform Scenario.app Scenario.corrupt_info)
  = Ok (mkDepChanges ["flask"] []).
Proof.
  apply (@GetDepChanges_drops_progInfo_error example_platform Scenario.app
           Scenario.corrupt_info (Scenario.bytes "{") ErrSyntax Python
           ["flask"]);
    solve [discriminate | vm_compute; reflexivity].
Defined.

(** The same with a program info file that cannot be opened. *)
Lemma GetDepChanges_drops_permission_error `{Platform} :
  fst (GetProgInfo Scenario.app Scenario.denied_info)
  = (None, Some ErrPermission) /\
  fst (GetDepChanges Scenario.app Scenario.denied_info)
  = Ok (mkDepChanges ["flask"] []).
Proof.
  assert (Hp : fst (GetProgInfo Scenario.app Scenario.denied_info)
               = (None, Some ErrPermission))
    by (apply GetProgInfo_denied; [discriminate | reflexivity]).
  split; [exact Hp|].
  apply (GetDepChanges_error_as_first_run Scenario.app Scenario.denied_info
           ErrPermission Python); [exact Hp | reflexivity |].
  erewrite readDeps_python by reflexivity. reflexivity.
Qed.

(** ** A walk that stops on an error *)

(** C2, where it fails.  When the stored state loads and the walk of
    [GetChanges] stops on an error, [GetChanges] returns no error: it
    returns what the walk had collected up to there. *)
Theorem GetChanges_returns_after_walk_error `{Platform} (m : Manager)
    (d : disk) (st : stateMap) (e : error) :
  fst (getStoredState m d) = Ok st ->
  snd (fst (Walk (rootDir m) (GetChanges_fn m st) (∅, dom st) d)) = Some e ->
  fst (GetChanges m d)
  = Ok (let s := fst (fst (Walk (rootDir m) (GetChanges_fn m st)
                             (∅, dom st) d)) in
        mkStateChanges (fst s) (elements (snd s))).
Proof.
  intros Hst _. apply GetChanges_stored.
  pose proof (readonly_getStoredState m d) as Hro.
  destruct (getStoredState m d) as [r d']. simpl in *. now subst.
Qed.

Lemma GetChanges_returns_after_walk_error_witness :
  let P := example_platform in
  let d := @Scenario.aborted P in
  snd (fst (Walk "/app"
              (@GetChanges_fn P Scenario.app {[ "/app/c.py" := "00" ]})
              (∅, {[ "/app/c.py" ]}) d)) = Some ErrPermission /\
  fst (@GetChanges P Scenario.app d)
  = Ok (mkStateChanges {[ "/app/a.py" := Scenario.bytes "print(1)" ]}
          [ "/app/c.py" ]).
Proof.
  split; [vm_compute; reflexivity|].
  rewrite (@GetChanges_returns_after_walk_error example_platform Scenario.app
             (@Scenario.aborted example_platform)
             {[ "/app/c.py" := "00" ]} ErrPermission);
    vm_compute; reflexivity.
Defined.

(** C1, where it fails.  The directory [cache] does not list and stops
    the walk; [main.py], a file that is not hidden, can be read and is
    not in the stored snapshot, is then in neither [Changes] nor
    [Deletions]. *)
Theorem GetChanges_skips_file_after_error `{Platform} :
  let d := Scenario.behind_unlistable in
  fst (getStoredState Scenario.app d) = Ok ∅ /\
  fst (readFile Scenario.app "/app/main.py" d)
  = Ok (Scenario.bytes "print(1)") /\
  isHidden Scenario.app "/app/main.py" = false /\
  fst (GetChanges Scenario.app d) = Ok (mkStateChanges ∅ []).
Proof.
  intros d.
  assert (Hst : getStoredState Scenario.app d = (Ok ∅, d))
    by (apply getStoredState_data; [discriminate | reflexivity]).
  split; [now rewrite Hst|]. split; [vm_compute; reflexivity|].
  split; [reflexivity|].
  rewrite (GetChanges_stored Scenario.app d ∅ Hst).
  vm_compute. reflexivity.
Qed.

(** C6, where it fails.  A directory that does not list is passed over
    by [storeState], which succeeds, and stops the walk of [GetChanges],
    which then reports the file after it as deleted. *)
Theorem GetChanges_after_storeState_unlistable `{Platform} :
  let d := Scenario.unlistable in
  fst (storeState Scenario.app d) = None /\
  fst (GetChanges Scenario.app (snd (storeState Scenario.app d)))
  = Ok (mkStateChanges ∅ [ "/app/main.py" ]).
Proof.
  intros d.
  assert (Hs : fst (storeState Scenario.app d) = None)
    by (vm_compute; reflexivity).
  split; [exact Hs|].
  pose proof (storeState_getStoredState Scenario.app d Hs) as Hst.
  pose proof (readonly_getStoredState Scenario.app
                (snd (storeState Scenario.app d))) as Hro.
  destruct (getStoredState Scenario.app (snd (storeState Scenario.app d)))
    as [r d'] eqn:E. simpl in Hst, Hro. subst r d'.
  rewrite (GetChanges_stored Scenario.app _ _ E).
  vm_compute. reflexivity.
Qed.

(** ** Every walk is a run over its events *)

Section WalkRun.
Context {S : Type} (strict : bool) (fn : WalkFunc S).
Hypothesis Hfn : visits strict fn.

Lemma run_app evs1 evs2 s d :
  run fn (evs1 ++ evs2) s d
  = match snd (fst (run fn evs1 s d)) with
    | None => run fn evs2 (fst (fst (run fn evs1 s d))) (snd (run fn evs1 s d))
    | Some _ => run fn evs1 s d
    end.
Proof.
  revert s d. induction evs1 as [|[p|e] evs1 IH]; intros s d; simpl.
  - reflexivity.
  - unfold bind. destruct (fn s p false None d) as [[s' [e|]] d']; simpl.
    + reflexivity.
    + apply IH.
  - reflexivity.
Qed.

Lemma run_readonly evs s d : snd (run fn evs s d) = d.
Proof.
  revert s d. induction evs as [|[p|e] evs IH]; intros s d; simpl.
  - reflexivity.
  - unfold bind. pose proof (visits_file strict fn Hfn s p d) as [Hro _].
    destruct (fn s p false None d) as [[s' [e|]] d']; simpl in *; subst d'.
    + reflexivity.
    + apply IH.
  - reflexivity.
Qed.

Lemma run_not_SkipDir evs s d :
  Forall (fun ev => ev <> inr SkipDir) evs ->
  snd (fst (run fn evs s d)) <> Some SkipDir.
Proof.
  intros Hevs. revert s d.
  induction Hevs as [|[p|e] evs Hev _ IH]; intros s d; simpl.
  - discriminate.
  - unfold bind. pose proof (visits_file strict fn Hfn s p d) as [_ Hns].
    destruct (fn s p false None d) as [[s' [e|]] d']; simpl in *.
    + exact Hns.
    + apply IH.
  - congruence.
Qed.

Lemma events_not_SkipDir n path :
  Forall (fun ev => ev <> inr SkipDir) (events strict path n).
Proof.
  revert path. induction n as [name | name l cs IH] using node_rect';
    intros path; simpl.
  - destruct (hidden_name _); repeat constructor. discriminate.
  - destruct l.
    + destruct (hidden_name _); [constructor|].
      induction IH as [|c cs Hc _ IHcs]; simpl; [constructor|].
      apply Forall_app; split; [apply Hc | exact IHcs].
    + destruct strict; repeat constructor. discriminate.
Qed.

Lemma skipped_events path n :
  skipped strict path n = true -> events strict path n = [].
Proof.
  destruct n as [name | name l cs]; simpl; [discriminate|].
  intros [Hh Hl]%andb_prop. rewrite Hh.
  destruct l; [reflexivity|]. now destruct strict.
Qed.

Lemma skipped_IsDir path n : skipped strict path n = true -> IsDir n = true.
Proof. now destruct n. Qed.

Lemma walkEach_run path cs :
  Forall (fun c => forall p s d,
            walk fn p c s d
            = if skipped strict p c then ((s, Some SkipDir), d)
              else run fn (events strict p c) s d) cs ->
  forall s d,
    walkEach (walk fn) path cs s d
    = run fn (flat_map (fun c => events strict (Join path (node_name c)) c) cs)
          s d.
Proof.
  induction 1 as [|c cs Hc _ IH]; intros s d; simpl; [reflexivity|].
  unfold bind. rewrite Hc, run_app.
  destruct (skipped strict (Join path (node_name c)) c) eqn:Hsk.
  - rewrite (skipped_events _ _ Hsk), (skipped_IsDir _ _ Hsk). simpl.
    apply IH.
  - pose proof (run_not_SkipDir (events strict (Join path (node_name c)) c)
                  s d (events_not_SkipDir c _)) as Hns.
    destruct (run fn (events strict (Join path (node_name c)) c) s d)
      as [[s' [e|]] d']; simpl in *.
    + rewrite bool_decide_eq_false_2 by congruence.
      now rewrite orb_true_r.
    + apply IH.
Qed.

Lemma walk_run n :
  forall path s d,
    walk fn path n s d
    = if skipped strict path n then ((s, Some SkipDir), d)
      else run fn (events strict path n) s d.
Proof.
  induction n as [name | name l cs IH] using node_rect'; intros path s d.
  - simpl. destruct (hidden_name (snd (Split path))) eqn:Hh.
    + now rewrite (visits_hidden_file strict fn Hfn).
    + simpl. unfold bind.
      now destruct (fn s path false None d) as [[s' [e|]] d'].
  - simpl. unfold bind. destruct l; simpl.
    + rewrite (visits_dir strict fn Hfn).
      destruct (hidden_name (snd (Split path))); simpl; [reflexivity|].
      now apply walkEach_run.
    + rewrite (visits_unlisted strict fn Hfn).
      destruct strict; simpl; [now rewrite andb_false_r|].
      now destruct (hidden_name (snd (Split path))).
Qed.

Lemma Walk_run root s d :
  Walk root fn s d = run fn (events strict root (tree d)) s d.
Proof.
  unfold Walk. rewrite walk_run.
  destruct (skipped strict root (tree d)) eqn:Hsk.
  - now rewrite (skipped_events _ _ Hsk).
  - pose proof (run_not_SkipDir (events strict root (tree d)) s d
                  (events_not_SkipDir _ _)) as Hns.
    destruct (run fn (events strict root (tree d)) s d) as [[s' [e|]] d'];
      simpl in *; [|reflexivity].
    destruct e; congruence.
Qed.

End WalkRun.

(** ** The three function literals, on one entry *)

Section Literals.
Context `{Platform} (m : Manager).

Lemma storeState_fn_file sm path d :
  hidden_name (snd (Split path)) = false ->
  storeState_fn m sm path false None d
  = (match fst (os_read path d) with
     | Ok c => (<[path := hex (Sum256 c)]> sm, None)
     | Err e => (sm, Some e)
     end, d).
Proof.
  intros Hh. unfold storeState_fn, isHidden, calcChecksum, readFile, bind.
  unfold hidden_name in Hh. rewrite Hh.
  pose proof (readonly_os_read path d) as Hro.
  destruct (os_read path d) as [r d'] eqn:E. simpl in Hro. subst d'.
  now destruct r.
Qed.

Lemma GetChanges_fn_file st s path d :
  hidden_name (snd (Split path)) = false ->
  GetChanges_fn m st s path false None d
  = (match fst (os_read path d) with
     | Ok c =>
         if bool_decide (default "" (st !! path) ≠ hex (Sum256 c))
         then ((<[path := c]> (fst s), snd s ∖ {[path]}), None)
         else ((fst s, snd s ∖ {[path]}), None)
     | Err e => ((fst s, snd s ∖ {[path]}), Some e)
     end, d).
Proof.
  intros Hh. unfold GetChanges_fn, isHidden, calcChecksum, readFile, bind.
  unfold hidden_name in Hh. rewrite Hh.
  pose proof (readonly_os_read path d) as Hro.
  destruct (os_read path d) as [r d'] eqn:E. simpl in Hro. subst d'.
  destruct r as [c|e]; simpl; [|reflexivity].
  destruct (bool_decide (default "" (st !! path) ≠ hex (Sum256 c)));
    simpl; [|reflexivity].
  now rewrite E.
Qed.

Lemma readAll_fn_file ch path d :
  hidden_name (snd (Split path)) = false ->
  readAll_fn m ch path false None d
  = (match fst (os_read path d) with
     | Ok c => (<[path := c]> ch, None)
     | Err e => (ch, Some e)
     end, d).
Proof.
  intros Hh. unfold readAll_fn, isHidden, bind.
  unfold hidden_name in Hh. rewrite Hh.
  pose proof (readonly_os_read path d) as Hro.
  destruct (os_read path d) as [r d'] eqn:E. simpl in Hro. subst d'.
  now destruct r.
Qed.

Lemma os_read_error_not_SkipDir path d e :
  fst (os_read path d) = Err e -> e <> SkipDir.
Proof. intros [-> | ->]%os_read_error; discriminate. Qed.

Lemma visits_storeState_fn : visits false (storeState_fn m).
Proof.
  split.
  - intros sm path d. unfold storeState_fn, isHidden, hidden_name.
    now destruct (HasPrefix _ _).
  - intros sm path e d. unfold storeState_fn, isHidden, hidden_name.
    now destruct (HasPrefix _ _).
  - intros sm path d Hh. unfold storeState_fn, isHidden.
    unfold hidden_name in Hh. now rewrite Hh.
  - intros sm path d. split; [apply readonly_storeState_fn|].
    destruct (hidden_name (snd (Split path))) eqn:Hh.
    + unfold storeState_fn, isHidden. unfold hidden_name in Hh.
      rewrite Hh. discriminate.
    + rewrite (storeState_fn_file _ _ _ Hh). simpl.
      destruct (fst (os_read path d)) as [c|e] eqn:E; simpl; [discriminate|].
      intros [= ->]. now apply (os_read_error_not_SkipDir path d SkipDir).
Qed.

Lemma visits_GetChanges_fn st : visits true (GetChanges_fn m st).
Proof.
  split.
  - intros s path d. unfold GetChanges_fn, isHidden, hidden_name.
    now destruct (HasPrefix _ _).
  - reflexivity.
  - intros s path d Hh. unfold GetChanges_fn, isHidden.
    unfold hidden_name in Hh. now rewrite Hh.
  - intros s path d. split; [apply readonly_GetChanges_fn|].
    destruct (hidden_name (snd (Split path))) eqn:Hh.
    + unfold GetChanges_fn, isHidden. unfold hidden_name in Hh.
      rewrite Hh. discriminate.
    + rewrite (GetChanges_fn_file _ _ _ _ Hh). simpl.
      destruct (fst (os_read path d)) as [c|e] eqn:E; simpl.
      * destruct (bool_decide (default "" (st !! path) ≠ hex (Sum256 c)));
          discriminate.
      * intros [= ->]. now apply (os_read_error_not_SkipDir path d SkipDir).
Qed.

Lemma visits_readAll_fn : visits true (readAll_fn m).
Proof.
  split.
  - intros s path d. unfold readAll_fn, isHidden, hidden_name.
    now destruct (HasPrefix _ _).
  - reflexivity.
  - intros s path d Hh. unfold readAll_fn, isHidden.
    unfold hidden_name in Hh. now rewrite Hh.
  - intros s path d. split; [apply readonly_readAll_fn|].
    destruct (hidden_name (snd (Split path))) eqn:Hh.
    + unfold readAll_fn, isHidden. unfold hidden_name in Hh.
      rewrite Hh. discriminate.
    + rewrite (readAll_fn_file _ _ _ Hh). simpl.
      destruct (fst (os_read path d)) as [c|e] eqn:E; simpl; [discriminate|].
      intros [= ->]. now apply (os_read_error_not_SkipDir path d SkipDir).
Qed.

End Literals.

(** ** What a completed run has collected *)

Lemma files_of_snoc evs p : files_of (evs ++ [inl p]) = files_of evs ++ [p].
Proof. unfold files_of. now rewrite omap_app. Qed.

Section RunSpec.
Context `{Platform} (m : Manager) (d : disk).

(** A run that ends without error met files only. *)
Lemma run_no_error_files {S} (strict : bool) (fn : WalkFunc S) evs s :
  visits strict fn ->
  snd (fst (run fn evs s d)) = None ->
  Forall (fun ev => exists p, ev = inl p) evs.
Proof.
  intros Hfn. revert s d. induction evs as [|[p|e] evs IH]; intros s d' Hrun.
  - constructor.
  - constructor; [now exists p|]. simpl in Hrun. unfold bind in Hrun.
    destruct (fn s p false None d') as [[s' [e|]] d'']; simpl in Hrun;
      [discriminate|]. now apply (IH s' d'').
  - discriminate.
Qed.

(** [GetChanges] after a run without error over files that are not
    hidden: [Changes] holds the files met whose fingerprint differs from
    the stored one, with their contents; [deletions] has lost the files
    met. *)
Lemma run_GetChanges_spec st (D0 : gset string) evs :
  Forall plain_file evs ->
  forall s1 d1,
    run (GetChanges_fn m st) evs (∅, D0) d = ((s1, None), d1) ->
    d1 = d /\
    (forall p, p ∈ snd s1 <-> p ∈ D0 /\ p ∉ files_of evs) /\
    (forall p c,
        fst s1 !! p = Some c <->
        p ∈ files_of evs /\ fst (os_read p d) = Ok c /\ differs st p c).
Proof.
  induction evs as [|ev evs IH] using rev_ind; intros Hpl s1 d1 Hrun.
  - simpl in Hrun. injection Hrun as <- <-. split; [reflexivity|]. split.
    + intros p. simpl. split.
      * intros Hp. split; [exact Hp | apply not_elem_of_nil].
      * intros [Hp _]. exact Hp.
    + intros p c. simpl. rewrite lookup_empty. split; [discriminate|].
      intros [Hp _]. now apply elem_of_nil in Hp.
  - apply Forall_app in Hpl as [Hpl Hev]. inversion Hev as [|? ? Hq _]; subst.
    rewrite run_app in Hrun.
    destruct (run (GetChanges_fn m st) evs (∅, D0) d) as [[s' e'] d'] eqn:E.
    cbn [fst snd] in Hrun. destruct e' as [e'|]; [discriminate|].
    destruct (IH Hpl s' d' eq_refl) as (-> & Hdel & Hch).
    destruct ev as [q|e]; [|contradiction]. simpl in Hq.
    cbn [run] in Hrun. unfold bind in Hrun.
    rewrite (GetChanges_fn_file m st s' q d Hq) in Hrun.
    rewrite files_of_snoc.
    destruct (fst (os_read q d)) as [c|e] eqn:Hread; simpl in Hrun;
      [|discriminate].
    assert (Hdel1 : forall p, p ∈ snd s' ∖ {[q]} <->
                              p ∈ D0 /\ p ∉ files_of evs ++ [q]).
    { intros p. rewrite elem_of_difference, Hdel, elem_of_singleton.
      rewrite elem_of_app, list_elem_of_singleton. tauto. }
    destruct (bool_decide (default "" (st !! q) ≠ hex (Sum256 c))) eqn:Hdiff;
      simpl in Hrun; injection Hrun as <- <-; simpl;
      (split; [reflexivity|]); (split; [exact Hdel1|]); intros p c'.
    + apply bool_decide_eq_true_1 in Hdiff.
      rewrite lookup_insert_Some, Hch, elem_of_app, list_elem_of_singleton.
      split.
      * intros [[<- <-] | [Hne Hp]]; [auto | tauto].
      * intros ([Hp | ->] & Hr & Hd).
        -- destruct (decide (q = p)) as [<-|Hne]; [|right; auto].
           left. split; [reflexivity|]. congruence.
        -- left. split; [reflexivity|]. congruence.
    + apply bool_decide_eq_false_1 in Hdiff.
      rewrite Hch, elem_of_app, list_elem_of_singleton. split; [tauto|].
      intros ([Hp | ->] & Hr & Hd); [auto|].
      exfalso. apply Hdiff. unfold differs in Hd. congruence.
Qed.

End RunSpec.

Lemma events_files_not_hidden strict n path :
  Forall (fun ev => match ev with
                    | inl p => hidden_name (snd (Split p)) = false
                    | inr _ => True
                    end) (events strict path n).
Proof.
  revert path. induction n as [name | name l cs IH] using node_rect';
    intros path; simpl.
  - destruct (hidden_name (snd (Split path))) eqn:Hh; repeat constructor.
    exact Hh.
  - destruct l.
    + destruct (hidden_name _); [constructor|].
      induction IH as [|c cs Hc _ IHcs]; simpl; [constructor|].
      apply Forall_app; split; [apply Hc | exact IHcs].
    + destruct strict; repeat constructor.
Qed.

Lemma completed_run_plain {S} strict (fn : WalkFunc S) n path s d :
  visits strict fn ->
  snd (fst (run fn (events strict path n) s d)) = None ->
  Forall plain_file (events strict path n).
Proof.
  intros Hfn Hrun.
  pose proof (run_no_error_files d strict fn _ s Hfn Hrun) as Hfiles.
  pose proof (events_files_not_hidden strict n path) as Hnh.
  rewrite List.Forall_forall in *. intros ev Hin.
  destruct (Hfiles ev Hin) as [p ->]. exact (Hnh _ Hin).
Qed.

Lemma hex_Sum256_not_empty `{Platform} (c : list byte) : hex (Sum256 c) <> "".
Proof.
  pose proof (Sum256_size c) as Hlen.
  destruct (Sum256 c) as [|b bs]; [discriminate Hlen | discriminate].
Qed.

(** A path differs from the snapshot when it is not stored or is stored
    with another fingerprint. *)
Lemma differs_cases `{Platform} (st : stateMap) path c :
  differs st path c <->
  st !! path = None \/ exists h, st !! path = Some h /\ h <> hex (Sum256 c).
Proof.
  unfold differs. destruct (st !! path) as [h|]; simpl; split.
  - intros Hne. right. now exists h.
  - intros [Hn | (h' & [= <-] & Hne)]; [discriminate | exact Hne].
  - now left.
  - intros _ Heq. now apply (hex_Sum256_not_empty c).
Qed.

(** X1.  The partition, on a walk that comes to its end.  With the stored
    snapshot loaded and no error in the walk: a path is a key of
    [Changes] exactly when the walk visited a file there that is not in
    the snapshot or has another fingerprint, and the value is the file's
    contents; a path is in [Deletions] exactly when it is a key of the
    snapshot and the walk visited no file there; no path is in both. *)
Lemma GetChanges_partition `{Platform} (m : Manager) (d : disk)
    (st : stateMap) (sc : StateChanges) :
  fst (getStoredState m d) = Ok st ->
  snd (fst (Walk (rootDir m) (GetChanges_fn m st) (∅, dom st) d)) = None ->
  fst (GetChanges m d) = Ok sc ->
  let vs := visited true (rootDir m) (tree d) in
  (forall p c,
      Changes sc !! p = Some c <->
      p ∈ vs /\ fst (os_read p d) = Ok c /\
      (st !! p = None \/ exists h, st !! p = Some h /\ h <> hex (Sum256 c))) /\
  (forall p, p ∈ Deletions sc <-> p ∈ dom st /\ p ∉ vs) /\
  (forall p c, Changes sc !! p = Some c -> p ∉ Deletions sc).
Proof.
  intros Hst Hwalk Hsc vs.
  assert (Hst' : getStoredState m d = (Ok st, d)).
  { pose proof (readonly_getStoredState m d) as Hro.
    destruct (getStoredState m d) as [r d']. simpl in *. now subst. }
  rewrite (GetChanges_stored m d st Hst') in Hsc. injection Hsc as <-.
  rewrite (Walk_run true _ (visits_GetChanges_fn m st)) in *.
  pose proof (completed_run_plain true _ _ _ _ _ (visits_GetChanges_fn m st)
                Hwalk) as Hplain.
  destruct (run (GetChanges_fn m st) (events true (rootDir m) (tree d))
              (∅, dom st) d) as [[s1 e] d1] eqn:Hrun.
  simpl in Hwalk. subst e.
  destruct (run_GetChanges_spec m d st (dom st) _ Hplain s1 d1 Hrun)
    as (-> & Hdel & Hch).
  simpl. fold vs in Hdel, Hch.
  assert (Hparts : forall p c,
            fst s1 !! p = Some c <->
            p ∈ vs /\ fst (os_read p d) = Ok c /\
            (st !! p = None \/
             exists h, st !! p = Some h /\ h <> hex (Sum256 c))).
  { intros p c. rewrite Hch. now rewrite differs_cases. }
  split; [exact Hparts|]. split.
  - intros p. now rewrite elem_of_elements.
  - intros p c Hp Hin. apply elem_of_elements, Hdel in Hin as [_ Hnv].
    apply Hparts in Hp as [Hv _]. contradiction.
Qed.

(** ** A snapshot, then the changes *)

Lemma events_all_listable n path :
  all_listable n = true -> events true path n = events false path n.
Proof.
  revert path. induction n as [name | name l cs IH] using node_rect';
    intros path Hall; simpl; [reflexivity|].
  simpl in Hall. apply andb_prop in Hall as [-> Hcs].
  destruct (hidden_name (snd (Split path))); [reflexivity|].
  pose proof (proj1 (List.forallb_forall _ _) Hcs) as Hcs'.
  clear Hcs. induction IH as [|c cs Hc _ IHcs]; simpl; [reflexivity|].
  rewrite Hc by (apply Hcs'; now left).
  f_equal. apply IHcs. intros x Hx. apply Hcs'. now right.
Qed.

(** The files met are paths reached. *)
Lemma events_reach strict root n path :
  names_ok n = true -> reach root path ->
  Forall (fun ev => forall p, ev = inl p -> reach root p)
         (events strict path n).
Proof.
  revert path. induction n as [name | name l cs IH] using node_rect';
    intros path Hok Hreach; simpl.
  - destruct (hidden_name _); repeat constructor. now intros p [= <-].
  - destruct l; [|destruct strict; repeat constructor; discriminate].
    destruct (hidden_name (snd (Split path))) eqn:Hh; [constructor|].
    simpl in Hok. pose proof (proj1 (List.forallb_forall _ _) Hok) as Hok'.
    clear Hok. induction IH as [|c cs Hc _ IHcs]; simpl; [constructor|].
    apply Forall_app; split.
    + destruct (andb_prop _ _ (Hok' c (or_introl eq_refl))) as [Hname Hc'].
      apply Hc; [exact Hc'|]. now apply reach_child.
    + apply IHcs. intros x Hx. apply Hok'. now right.
Qed.

Lemma reach_HasPrefix root path :
  root <> "" -> reach root path -> HasPrefix path "/" = HasPrefix root "/".
Proof.
  intros Hne. induction 1 as [|path name Hr IH _ _]; [reflexivity|].
  rewrite HasPrefix_slash_Join; [exact IH|].
  clear IH. induction Hr; [exact Hne|]. unfold Join.
  destruct path; discriminate.
Qed.

Lemma abspath_inj d p q :
  HasPrefix p "/" = HasPrefix q "/" -> abspath d p = abspath d q -> p = q.
Proof.
  unfold abspath. intros ->. destruct (HasPrefix q "/"); [easy|].
  unfold Join. intros Heq. apply String.app_inj in Heq.
  now apply String.app_inj in Heq.
Qed.

(** The state file of a manager is below a hidden directory of its
    root. *)
Lemma statePath_under_hidden root :
  under_hidden root (statePath (NewManager root)) = true.
Proof.
  unfold under_hidden.
  change (statePath (NewManager root)) with (Join (Join root detaDir) stateFile).
  rewrite (Join_root root detaDir), Join_below by discriminate.
  rewrite components_below; [|discriminate|repeat constructor].
  simpl. apply orb_true_r.
Qed.

Lemma statePath_HasPrefix root :
  root <> "" ->
  HasPrefix (statePath (NewManager root)) "/" = HasPrefix root "/".
Proof.
  intros Hne.
  change (statePath (NewManager root)) with (Join (Join root detaDir) stateFile).
  rewrite !HasPrefix_slash_Join; auto. unfold Join. destruct root; discriminate.
Qed.

(** No file that the walk meets is the state file. *)
Lemma met_file_not_statePath strict root (d : disk) p :
  root <> "" -> names_ok (tree d) = true ->
  p ∈ files_of (events strict root (tree d)) ->
  abspath d p <> abspath d (statePath (NewManager root)).
Proof.
  intros Hne Hok Hp Habs.
  apply list_elem_of_omap in Hp as (ev & Hin & Hev).
  destruct ev as [p'|e]; [|discriminate]. injection Hev as ->.
  apply list_elem_of_In in Hin.
  pose proof (events_reach strict root (tree d) root Hok (reach_root root))
    as Hreach.
  pose proof (events_files_not_hidden strict (tree d) root) as Hnh.
  rewrite List.Forall_forall in Hreach, Hnh.
  specialize (Hreach _ Hin p eq_refl). specialize (Hnh _ Hin). simpl in Hnh.
  apply abspath_inj in Habs.
  - pose proof (reach_not_under_hidden root p Hreach Hnh) as Hu.
    rewrite Habs, statePath_under_hidden in Hu. discriminate.
  - now rewrite (reach_HasPrefix root p Hne Hreach), statePath_HasPrefix.
Qed.

Section SnapshotThenChanges.
Context `{Platform} (m : Manager).

(** [storeState] after a run without error: the snapshot holds, for
    each file met, the fingerprint of its contents. *)
Lemma run_storeState_spec d evs :
  Forall plain_file evs ->
  forall sm d1,
    run (storeState_fn m) evs ∅ d = ((sm, None), d1) ->
    d1 = d /\
    (forall p, p ∈ files_of evs -> exists c, fst (os_read p d) = Ok c) /\
    (forall p h,
        sm !! p = Some h <->
        p ∈ files_of evs /\
        exists c, fst (os_read p d) = Ok c /\ h = hex (Sum256 c)).
Proof.
  induction evs as [|ev evs IH] using rev_ind; intros Hpl sm d1 Hrun.
  - simpl in Hrun. injection Hrun as <- <-. split; [reflexivity|]. split.
    + intros p Hp. now apply elem_of_nil in Hp.
    + intros p h. rewrite lookup_empty. split; [discriminate|].
      intros [Hp _]. now apply elem_of_nil in Hp.
  - apply Forall_app in Hpl as [Hpl Hev]. inversion Hev as [|? ? Hq _]; subst.
    rewrite run_app in Hrun.
    destruct (run (storeState_fn m) evs ∅ d) as [[s' e'] d'] eqn:E.
    cbn [fst snd] in Hrun. destruct e' as [e'|]; [discriminate|].
    destruct (IH Hpl s' d' eq_refl) as (-> & Hread & Hsm).
    destruct ev as [q|e]; [|contradiction]. simpl in Hq.
    cbn [run] in Hrun. unfold bind in Hrun.
    rewrite (storeState_fn_file m s' q d Hq) in Hrun.
    rewrite files_of_snoc.
    destruct (fst (os_read q d)) as [c|e] eqn:Hrq; simpl in Hrun;
      [|discriminate].
    injection Hrun as <- <-. split; [reflexivity|]. split.
    + intros p [Hp | ->%list_elem_of_singleton]%elem_of_app;
        [now apply Hread | now exists c].
    + intros p h.
      rewrite lookup_insert_Some, Hsm, elem_of_app, list_elem_of_singleton.
      split.
      * intros [[<- <-] | [Hne (Hp & c' & Hr & ->)]].
        -- split; [now right | now exists c].
        -- split; [now left | now exists c'].
      * intros ([Hp | ->] & c' & Hr & ->).
        -- destruct (decide (q = p)) as [<-|Hne].
           ++ left. split; [reflexivity|]. congruence.
           ++ right. split; [exact Hne|]. split; [exact Hp | now exists c'].
        -- left. split; [reflexivity|]. congruence.
Qed.

(** [GetChanges] over files that all carry their stored fingerprint:
    nothing changes, and the files met leave [deletions]. *)
Lemma run_GetChanges_same st d evs :
  Forall plain_file evs ->
  (forall p, p ∈ files_of evs ->
             exists c, fst (os_read p d) = Ok c /\
                       st !! p = Some (hex (Sum256 c))) ->
  forall D : gset string,
    exists D',
      run (GetChanges_fn m st) evs (∅, D) d = (((∅, D'), None), d) /\
      (forall p, p ∈ D' <-> p ∈ D /\ p ∉ files_of evs).
Proof.
  induction evs as [|ev evs IH]; intros Hpl Hsame D.
  - exists D. split; [reflexivity|]. intros p. split; [|tauto].
    intros Hp. split; [exact Hp | apply not_elem_of_nil].
  - inversion Hpl as [|? ? Hq Hpl']; subst.
    destruct ev as [q|e]; [|contradiction]. simpl in Hq.
    change (files_of (inl q :: evs)) with (q :: files_of evs) in *.
    destruct (Hsame q (list_elem_of_here _ _)) as (c & Hr & Hst).
    destruct (IH Hpl' (fun p Hp => Hsame p (list_elem_of_further _ _ _ Hp))
                (D ∖ {[q]})) as (D' & Hrun & HD').
    exists D'. split.
    + cbn [run]. unfold bind.
      rewrite (GetChanges_fn_file m st (∅, D) q d Hq), Hr, Hst. simpl.
      rewrite bool_decide_eq_false_2 by (intros Hne; now apply Hne).
      simpl. exact Hrun.
    + intros p. rewrite HD', elem_of_difference, elem_of_singleton, elem_of_cons.
      tauto.
Qed.

End SnapshotThenChanges.

(** X2.  After a snapshot was stored, and with nothing changed on the disk,
    [GetChanges] finds no change and no deletion, on a tree in which
    every directory lists.  (On such a tree the two walks meet the same
    files; the state file is the one file written, and it is hidden.) *)
Lemma storeState_then_GetChanges `{Platform} (root : string) (d : disk) :
  root <> "" ->
  names_ok (tree d) = true ->
  all_listable (tree d) = true ->
  fst (storeState (NewManager root) d) = None ->
  fst (GetChanges (NewManager root) (snd (storeState (NewManager root) d)))
  = Ok (mkStateChanges ∅ []).
Proof.
  intros Hroot Hok Hall Hs. set (m := NewManager root) in *.
  destruct (storeState_ok m d Hs) as (Hwalk & _ & Hd').
  pose proof (storeState_getStoredState m d Hs) as Hst.
  pose proof (readonly_getStoredState m (snd (storeState m d))) as Hro.
  destruct (getStoredState m (snd (storeState m d))) as [r d''] eqn:E.
  simpl in Hst, Hro. subst r d''.
  rewrite (GetChanges_stored m _ _ E). clear E.
  rewrite (Walk_run true _ (visits_GetChanges_fn m (snapshot m d))).
  unfold snapshot in *.
  rewrite (Walk_run false _ (visits_storeState_fn m)) in *.
  change (rootDir m) with root in *.
  pose proof (completed_run_plain false _ _ _ _ _ (visits_storeState_fn m)
                Hwalk) as Hplain.
  destruct (run (storeState_fn m) (events false root (tree d)) ∅ d)
    as [[sm e] d1] eqn:Hrun.
  simpl in Hwalk. subst e. cbn [fst] in *.
  destruct (run_storeState_spec m d _ Hplain sm d1 Hrun) as (-> & Hread & Hsm).
  rewrite Hd'. cbn [tree]. rewrite (events_all_listable _ _ Hall).
  set (d' := mkDisk (cwd d) (tree d)
               (<[abspath d (statePath m) := Data (marshalState sm)]> (files d))).
  assert (Hsame : forall p,
             p ∈ files_of (events false root (tree d)) ->
             exists c, fst (os_read p d') = Ok c /\
                       sm !! p = Some (hex (Sum256 c))).
  { intros p Hp. destruct (Hread p Hp) as [c Hc]. exists c. split.
    - unfold d'. rewrite os_read_other; [exact Hc|].
      now apply (met_file_not_statePath false root d p).
    - apply Hsm. split; [exact Hp | now exists c]. }
  destruct (run_GetChanges_same m sm d' _ Hplain Hsame (dom sm))
    as (D' & HrunG & HD').
  rewrite HrunG. cbn [fst snd]. do 2 f_equal.
  apply elements_empty_iff. intros p. split; [|intros []%elem_of_empty].
  intros [Hdom Hnot]%HD'. exfalso. apply Hnot.
  apply elem_of_dom in Hdom as [h Hh]. now apply Hsm in Hh as [Hp _].
Qed.

(** ** The first run *)

(** [readAll] after a run without error: the contents of each file
    met. *)
Lemma run_readAll_spec `{Platform} (m : Manager) d evs :
  Forall plain_file evs ->
  forall ch d1,
    run (readAll_fn m) evs ∅ d = ((ch, None), d1) ->
    forall p c,
      ch !! p = Some c <-> p ∈ files_of evs /\ fst (os_read p d) = Ok c.
Proof.
  induction evs as [|ev evs IH] using rev_ind; intros Hpl ch d1 Hrun p c.
  - simpl in Hrun. injection Hrun as <- <-. rewrite lookup_empty.
    split; [discriminate|]. intros [Hp _]. now apply elem_of_nil in Hp.
  - apply Forall_app in Hpl as [Hpl Hev]. inversion Hev as [|? ? Hq _]; subst.
    rewrite run_app in Hrun.
    destruct (run (readAll_fn m) evs ∅ d) as [[s' e'] d'] eqn:E.
    cbn [fst snd] in Hrun. destruct e' as [e'|]; [discriminate|].
    pose proof (IH Hpl s' d' eq_refl) as Hch.
    assert (d' = d) as ->.
    { pose proof (run_readonly true _ (visits_readAll_fn m) evs ∅ d) as Hro.
      now rewrite E in Hro. }
    destruct ev as [q|e]; [|contradiction]. simpl in Hq.
    cbn [run] in Hrun. unfold bind in Hrun.
    rewrite (readAll_fn_file m s' q d Hq) in Hrun.
    rewrite files_of_snoc.
    destruct (fst (os_read q d)) as [cq|e] eqn:Hrq; simpl in Hrun;
      [|discriminate].
    injection Hrun as <- <-.
    rewrite lookup_insert_Some, Hch, elem_of_app, list_elem_of_singleton.
    split.
    + intros [[<- <-] | [Hne [Hp Hr]]]; [auto | tauto].
    + intros [[Hp | ->] Hr].
      * destruct (decide (q = p)) as [<-|Hne]; [|right; auto].
        left. split; [reflexivity|]. congruence.
      * left. split; [reflexivity|]. congruence.
Qed.

(** [readAll], when it returns a result, returns the contents of every
    file that the walk visits, and no deletion. *)
Lemma readAll_spec `{Platform} (m : Manager) (d : disk) (sc : StateChanges) :
  fst (readAll m d) = Ok sc ->
  Deletions sc = [] /\
  forall p c,
    Changes sc !! p = Some c <->
    p ∈ visited true (rootDir m) (tree d) /\ fst (os_read p d) = Ok c.
Proof.
  unfold readAll, bind.
  rewrite (Walk_run true _ (visits_readAll_fn m)).
  pose proof (completed_run_plain true (readAll_fn m) (tree d) (rootDir m)
                ∅ d (visits_readAll_fn m)) as Hplain.
  destruct (run (readAll_fn m) (events true (rootDir m) (tree d)) ∅ d)
    as [[ch e] d1] eqn:Hrun.
  simpl in *. destruct e; [discriminate|]. intros [= <-].
  split; [reflexivity|]. simpl.
  exact (run_readAll_spec m d _ (Hplain eq_refl) ch d1 Hrun).
Qed.

(** ** [GetChanges] writes nothing *)

(** C9.  [GetChanges] leaves the disk, and with it the state file and
    the program info file, as it found them, whatever was stored.  With
    no state file it is [readAll]: a result then holds the contents of
    every file that is not hidden as an addition, and no deletion. *)
Theorem GetChanges_leaves_disk `{Platform} (m : Manager) (d : disk) :
  snd (GetChanges m d) = d /\
  (fst (getStoredState m d) = Err ErrNotExist ->
   GetChanges m d = readAll m d /\
   forall sc,
     fst (GetChanges m d) = Ok sc ->
     Deletions sc = [] /\
     forall p c,
       Changes sc !! p = Some c <->
       p ∈ visited true (rootDir m) (tree d) /\ fst (os_read p d) = Ok c).
Proof.
  split; [apply readonly_GetChanges|].
  intros Hst.
  assert (Heq : GetChanges m d = readAll m d).
  { unfold GetChanges, bind.
    pose proof (readonly_getStoredState m d) as Hro.
    destruct (getStoredState m d) as [[st|e] d']; simpl in *; subst d'.
    - discriminate.
    - now injection Hst as ->. }
  split; [exact Heq|]. rewrite Heq. intros sc. apply readAll_spec.
Qed.

(** ** The scenarios of the specification, run *)

(** A file with new contents and a new file are the changes; nothing is
    deleted. *)
Example scenario_changed_and_added :
  fst (@GetChanges example_platform Scenario.app
         (@Scenario.project_edited example_platform))
  = Ok (mkStateChanges
          {[ "/app/a.py" := Scenario.bytes "print(10)";
             "/app/c.py" := Scenario.bytes "print(3)" ]} []).
Proof. vm_compute. reflexivity. Qed.

(** A file that is gone is the one deletion; the new contents of the
    file below the hidden directory are no change. *)
Example scenario_deleted :
  fst (@GetChanges example_platform Scenario.app
         (@Scenario.project_later example_platform))
  = Ok (mkStateChanges ∅ [ "/app/b.py" ]).
Proof. vm_compute. reflexivity. Qed.

(** With no snapshot, every file that is not hidden is an addition. *)
Example scenario_first_run :
  fst (@GetChanges example_platform Scenario.app Scenario.project)
  = Ok (mkStateChanges
          {[ "/app/a.py" := Scenario.bytes "print(1)";
             "/app/b.py" := Scenario.bytes "print(2)";
             "/app/lib/x.py" := Scenario.bytes "x = 0" ]} []).
Proof. vm_compute. reflexivity. Qed.

(** A snapshot, then the changes: none. *)
Example scenario_nothing_changed :
  fst (@GetChanges example_platform Scenario.app
         (snd (@storeState example_platform Scenario.app Scenario.project)))
  = Ok (mkStateChanges ∅ []).
Proof. vm_compute. reflexivity. Qed.

(** * More of the package *)

(** ** The change detector on every walk *)

Lemma GetChanges_partition_witness :
  let P := example_platform in
  let d := @Scenario.project_edited P in
  "/app/c.py" ∈ visited true "/app" (tree d) /\
  fst (os_read "/app/c.py" d) = Ok (Scenario.bytes "print(3)") /\
  (@snapshot P Scenario.app Scenario.project !! "/app/c.py" = None \/
   exists h,
     @snapshot P Scenario.app Scenario.project !! "/app/c.py" = Some h /\
     h <> hex (Sum256 (Scenario.bytes "print(3)"))).
Proof.
  apply (proj1 (@GetChanges_partition example_platform Scenario.app
                  (@Scenario.project_edited example_platform)
                  (@snapshot example_platform Scenario.app Scenario.project)
                  (mkStateChanges
                     {[ "/app/a.py" := Scenario.bytes "print(10)";
                        "/app/c.py" := Scenario.bytes "print(3)" ]} [])
                  ltac:(vm_compute; reflexivity)
                  ltac:(vm_compute; reflexivity)
                  ltac:(vm_compute; reflexivity))
           "/app/c.py" (Scenario.bytes "print(3)")).
  vm_compute. reflexivity.
Defined.

Lemma storeState_then_GetChanges_witness :
  fst (@GetChanges example_platform (NewManager "/app")
         (snd (@storeState example_platform (NewManager "/app")
                 Scenario.project)))
  = Ok (mkStateChanges ∅ []).
Proof.
  apply (@storeState_then_GetChanges example_platform "/app" Scenario.project).
  - discriminate.
  - vm_compute; reflexivity.
  - vm_compute; reflexivity.
  - vm_compute; reflexivity.
Defined.

Section Sound.
Context `{Platform} (m : Manager) (d : disk) (st : stateMap) (D0 : gset string).

Lemma GetChanges_fn_sound s p :
  sound_changes m d st D0 s ->
  sound_changes m d st D0 (fst (fst (GetChanges_fn m st s p false None d))).
Proof.
  intros [Hch Hdel].
  destruct (hidden_name (snd (Split p))) eqn:Hh.
  - rewrite (visits_hidden_file true _ (visits_GetChanges_fn m st) s p d Hh).
    now split.
  - rewrite (GetChanges_fn_file m st s p d Hh). cbn [fst].
    assert (Hdel' : snd s ∖ {[p]} ⊆ D0)
      by (intros x [Hx _]%elem_of_difference; now apply Hdel).
    assert (Hkeep : forall q c,
               fst s !! q = Some c ->
               fst (readFile m q d) = Ok c /\ differs st q c /\
               hidden_name (snd (Split q)) = false /\ q ∉ snd s ∖ {[p]}).
    { intros q c Hq. destruct (Hch q c Hq) as (Hr & Hd & Hn & Hnot).
      repeat split; auto. intros [Hin _]%elem_of_difference. contradiction. }
    destruct (fst (os_read p d)) as [c|e] eqn:Hread; [|now split].
    destruct (bool_decide (default "" (st !! p) ≠ hex (Sum256 c))) eqn:Hdiff;
      [|now split].
    apply bool_decide_eq_true_1 in Hdiff. split; [|exact Hdel'].
    intros q c'. cbn [fst snd]. rewrite lookup_insert_Some.
    intros [[<- <-] | [Hne Hq]]; [|now apply Hkeep].
    repeat split; auto.
    intros [_ Hnot]%elem_of_difference. apply Hnot. now apply elem_of_singleton.
Qed.

Lemma run_GetChanges_sound evs :
  forall s,
    sound_changes m d st D0 s ->
    sound_changes m d st D0 (fst (fst (run (GetChanges_fn m st) evs s d))).
Proof.
  induction evs as [|[p|e] evs IH]; intros s Hs; cbn [run];
    [exact Hs| |exact Hs].
  unfold bind.
  pose proof (GetChanges_fn_sound s p Hs) as Hstep.
  pose proof (visits_file true _ (visits_GetChanges_fn m st) s p d) as [Hro _].
  destruct (GetChanges_fn m st s p false None d) as [[s' [e|]] d'];
    simpl in *; subst d'; [exact Hstep | now apply IH].
Qed.

End Sound.

(** X3.  Whatever [GetChanges] returns with a stored snapshot loaded,
    also from a walk that stopped early: every key of [Changes] is a
    file that is not hidden, its value is the contents read from it, and
    it is not in the snapshot or has another fingerprint there; every
    path in [Deletions] is a key of the snapshot; [Deletions] holds no
    path twice; and no path is in both. *)
Theorem GetChanges_sound `{Platform} (m : Manager) (d : disk)
    (st : stateMap) (sc : StateChanges) :
  fst (getStoredState m d) = Ok st ->
  fst (GetChanges m d) = Ok sc ->
  (forall p c,
      Changes sc !! p = Some c ->
      fst (readFile m p d) = Ok c /\
      hidden_name (snd (Split p)) = false /\
      (st !! p = None \/ exists h, st !! p = Some h /\ h <> hex (Sum256 c)) /\
      p ∉ Deletions sc) /\
  (forall p, p ∈ Deletions sc -> p ∈ dom st) /\
  NoDup (Deletions sc).
Proof.
  intros Hst Hsc.
  assert (Hst' : getStoredState m d = (Ok st, d)).
  { pose proof (readonly_getStoredState m d) as Hro.
    destruct (getStoredState m d) as [r d']. simpl in *. now subst. }
  rewrite (GetChanges_stored m d st Hst') in Hsc. injection Hsc as <-.
  rewrite (Walk_run true _ (visits_GetChanges_fn m st)).
  assert (Hinit : sound_changes m d st (dom st) (∅, dom st)).
  { split; [|done]. intros p c. cbn [fst]. rewrite lookup_empty. discriminate. }
  destruct (run_GetChanges_sound m d st (dom st)
              (events true (rootDir m) (tree d)) _ Hinit) as [Hch Hdel].
  cbn [Changes Deletions]. split; [|split].
  - intros p c Hp. destruct (Hch p c Hp) as (Hr & Hd & Hn & Hnot).
    repeat split; auto.
    + now apply differs_cases.
    + now rewrite elem_of_elements.
  - intros p Hp. apply Hdel. now apply elem_of_elements.
  - apply NoDup_elements.
Qed.

Lemma GetChanges_sound_witness :
  let P := example_platform in
  let d := @Scenario.aborted P in
  (fst (readFile Scenario.app "/app/a.py" d)
   = Ok (Scenario.bytes "print(1)") /\
   hidden_name (snd (Split "/app/a.py")) = false /\
   (({[ "/app/c.py" := "00" ]} : stateMap) !! "/app/a.py" = None \/
    exists h,
      ({[ "/app/c.py" := "00" ]} : stateMap) !! "/app/a.py" = Some h /\
      h <> hex (Sum256 (Scenario.bytes "print(1)"))) /\
   "/app/a.py" ∉ [ "/app/c.py" ]) /\
  snd (fst (Walk "/app"
              (@GetChanges_fn P Scenario.app {[ "/app/c.py" := "00" ]})
              (∅, {[ "/app/c.py" ]}) d)) = Some ErrPermission.
Proof.
  split; [|vm_compute; reflexivity].
  pose (st := ({[ "/app/c.py" := "00" ]} : stateMap)).
  pose (sc := mkStateChanges {[ "/app/a.py" := Scenario.bytes "print(1)" ]}
                [ "/app/c.py" ]).
  assert (H1 : fst (@getStoredState example_platform Scenario.app
                      (@Scenario.aborted example_platform)) = Ok st)
    by (vm_compute; reflexivity).
  assert (H2 : fst (@GetChanges example_platform Scenario.app
                      (@Scenario.aborted example_platform)) = Ok sc)
    by (vm_compute; reflexivity).
  apply (proj1 (@GetChanges_sound example_platform Scenario.app
                  (@Scenario.aborted example_platform) st sc H1 H2)
           "/app/a.py" (Scenario.bytes "print(1)")).
  vm_compute. reflexivity.
Defined.

(** ** When a walk comes to its end *)

Section Completes.
Context {S : Type} (strict : bool) (fn : WalkFunc S).
Hypothesis Hfn : visits strict fn.

(** On a file that is not hidden the function fails exactly when the
    file cannot be read. *)
Hypothesis Hfile :
  forall s p d,
    hidden_name (snd (Split p)) = false ->
    (snd (fst (fn s p false None d)) = None <->
     exists c, fst (os_read p d) = Ok c).

Lemma run_completes_iff evs s d :
  Forall (fun ev => match ev with
                    | inl p => hidden_name (snd (Split p)) = false
                    | inr _ => True
                    end) evs ->
  snd (fst (run fn evs s d)) = None <-> Forall (readable d) evs.
Proof.
  intros Hnh. revert s.
  induction Hnh as [|[p|e] evs Hp _ IH]; intros s; cbn [run].
  - split; [constructor | reflexivity].
  - unfold bind. pose proof (Hfile s p d Hp) as Hiff.
    pose proof (visits_file strict fn Hfn s p d) as [Hro _].
    destruct (fn s p false None d) as [[s' [e|]] d']; simpl in *; subst d'.
    + split; [discriminate|]. intros Hall. inversion Hall as [|? ? Hr _]; subst.
      now apply Hiff in Hr.
    + rewrite IH. split.
      * intros Hall. constructor; [now apply Hiff | exact Hall].
      * intros Hall. now inversion Hall.
  - simpl. split; [discriminate|]. intros Hall. now inversion Hall.
Qed.

Lemma Walk_completes_iff root s d :
  snd (fst (Walk root fn s d)) = None <->
  Forall (readable d) (events strict root (tree d)).
Proof.
  rewrite (Walk_run strict fn Hfn). apply run_completes_iff.
  apply events_files_not_hidden.
Qed.

End Completes.

Section CompletesLiterals.
Context `{Platform} (m : Manager).


Lemma readAll_fn_fails_iff ch p d :
  hidden_name (snd (Split p)) = false ->
  snd (fst (readAll_fn m ch p false None d)) = None <->
  exists c, fst (os_read p d) = Ok c.
Proof.
  intros Hh. rewrite (readAll_fn_file m ch p d Hh). cbn [fst].
  destruct (fst (os_read p d)) as [c|e]; cbn [snd].
  - split; [now exists c | reflexivity].
  - split; [discriminate | intros [c [=]]].
Qed.

End CompletesLiterals.

(** ** What [storeState] stores, and what it leaves *)

(** X4.  After a [storeState] that succeeded, [getStoredState] loads a
    snapshot whose keys are the files that the walk visited (not hidden,
    not below a hidden directory, not below a directory that does not
    list), each with the fingerprint of its contents. *)
Theorem storeState_snapshot `{Platform} (m : Manager) (d : disk) :
  fst (storeState m d) = None ->
  exists sm,
    fst (getStoredState m (snd (storeState m d))) = Ok sm /\
    forall p h,
      sm !! p = Some h <->
      p ∈ visited false (rootDir m) (tree d) /\
      exists c, fst (readFile m p d) = Ok c /\ h = hex (Sum256 c).
Proof.
  intros Hs. exists (snapshot m d).
  split; [now apply storeState_getStoredState|].
  destruct (storeState_ok m d Hs) as (Hwalk & _ & _).
  unfold snapshot. rewrite (Walk_run false _ (visits_storeState_fn m)) in *.
  pose proof (completed_run_plain false _ _ _ _ _ (visits_storeState_fn m)
                Hwalk) as Hplain.
  destruct (run (storeState_fn m) (events false (rootDir m) (tree d)) ∅ d)
    as [[sm e] d1] eqn:Hrun.
  simpl in Hwalk. subst e. cbn [fst].
  destruct (run_storeState_spec m d _ Hplain sm d1 Hrun) as (_ & _ & Hsm).
  exact Hsm.
Qed.

Lemma storeState_snapshot_witness :
  exists sm,
    fst (@getStoredState example_platform Scenario.app
           (snd (@storeState example_platform Scenario.app Scenario.project)))
    = Ok sm /\
    forall p h,
      sm !! p = Some h <->
      p ∈ visited false "/app" Scenario.project_tree /\
      exists c,
        fst (readFile Scenario.app p Scenario.project) = Ok c /\
        h = hex (@Sum256 example_platform c).
Proof.
  apply (@storeState_snapshot example_platform Scenario.app Scenario.project).
  vm_compute. reflexivity.
Defined.


(** ** [readAll] and a stored state that does not load *)

(** X6.  [readAll] returns a result exactly when every directory that
    its walk enters lists and every file that it visits can be read;
    otherwise it returns the error and no partial result.  It writes
    nothing. *)
Theorem readAll_all_or_nothing `{Platform} (m : Manager) (d : disk) :
  ((exists sc, fst (readAll m d) = Ok sc) <->
   Forall (readable d) (events true (rootDir m) (tree d))) /\
  ((exists e, fst (readAll m d) = Err e) <->
   ~ Forall (readable d) (events true (rootDir m) (tree d))) /\
  snd (readAll m d) = d.
Proof.
  pose proof (Walk_completes_iff true (readAll_fn m)
                (visits_readAll_fn m) (readAll_fn_fails_iff m)
                (rootDir m) ∅ d) as Hwalk.
  split; [|split; [|apply readonly_readAll]]; unfold readAll, bind;
    destruct (Walk (rootDir m) (readAll_fn m) ∅ d) as [[ch e] d'];
    simpl in Hwalk; destruct e as [e|]; cbn [fst snd].
  - split; [intros [sc [=]] | intros Hall; apply Hwalk in Hall; discriminate].
  - split; [intros _; now apply Hwalk | intros _; eauto].
  - split; [intros _ Hall; apply Hwalk in Hall; discriminate | eauto].
  - split; [intros [e [=]] | intros Hn; exfalso; apply Hn; now apply Hwalk].
Qed.

(** X7.  When the state file is there and does not load (it cannot be
    opened, or its bytes do not parse), [GetChanges] returns that error
    and no result; only the error of a missing file sends it to
    [readAll]. *)
Theorem GetChanges_state_error `{Platform} (m : Manager) (d : disk)
    (e : error) :
  fst (getStoredState m d) = Err e ->
  e <> ErrNotExist ->
  fst (GetChanges m d) = Err e.
Proof.
  intros Hst Hne. unfold GetChanges, bind.
  destruct (getStoredState m d) as [r d']. simpl in Hst. subst r.
  now rewrite bool_decide_eq_false_2.
Qed.

Lemma GetChanges_state_error_witness :
  let d := mkDisk "/app" Scenario.project_tree
             {[ "/app/.deta/state" := Denied ]} in
  fst (@GetChanges example_platform Scenario.app d) = Err ErrPermission.
Proof.
  apply (@GetChanges_state_error example_platform Scenario.app).
  - vm_compute. reflexivity.
  - discriminate.
Defined.

(** ** The dependency diff, in full *)

(** One occurrence of [x] in the current list is taken up when [x] is in
    the working copy. *)
Lemma depDiff_fold_count (deps : list string) :
  forall (A : list string) (R : gset string) (x : string),
    count_occ string_dec (fst (fold_left depDiff_step deps (A, R))) x
    + (if bool_decide (x ∈ R /\ x ∈ deps) then 1 else 0)
    = count_occ string_dec A x + count_occ string_dec deps x.
Proof.
  induction deps as [|d deps IH]; intros A R x; cbn [fold_left].
  - cbn [fst count_occ]. rewrite bool_decide_eq_false_2; [lia|].
    intros [_ Hx]. now apply elem_of_nil in Hx.
  - unfold depDiff_step at 2. cbn [fst snd].
    destruct (bool_decide (d ∈ R)) eqn:Hd.
    + apply bool_decide_eq_true_1 in Hd.
      specialize (IH A (R ∖ {[d]}) x).
      destruct (decide (x = d)) as [->|Hne].
      * rewrite (bool_decide_eq_false_2 (d ∈ R ∖ {[d]} /\ d ∈ deps)) in IH
          by (intros [[_ Hn]%elem_of_difference _]; apply Hn;
              now apply elem_of_singleton).
        rewrite (bool_decide_eq_true_2 (d ∈ R /\ d ∈ d :: deps))
          by (split; [exact Hd | left]).
        rewrite count_occ_cons_eq by reflexivity. lia.
      * rewrite count_occ_cons_neq by congruence.
        rewrite (bool_decide_ext (x ∈ R /\ x ∈ d :: deps)
                   (x ∈ R ∖ {[d]} /\ x ∈ deps)); [exact IH|].
        rewrite elem_of_difference, elem_of_singleton, elem_of_cons. tauto.
    + apply bool_decide_eq_false_1 in Hd.
      specialize (IH (A ++ [d]) R x). rewrite count_occ_app in IH.
      destruct (decide (x = d)) as [->|Hne].
      * rewrite (bool_decide_eq_false_2 (d ∈ R /\ d ∈ deps)) in IH by tauto.
        rewrite (bool_decide_eq_false_2 (d ∈ R /\ d ∈ d :: deps)) by tauto.
        cbn [count_occ] in IH. destruct (string_dec d d); [|contradiction].
        rewrite count_occ_cons_eq by reflexivity. lia.
      * rewrite count_occ_cons_neq by congruence.
        cbn [count_occ] in IH. destruct (string_dec d x); [congruence|].
        rewrite Nat.add_0_r in IH.
        rewrite (bool_decide_ext (x ∈ R /\ x ∈ d :: deps)
                   (x ∈ R /\ x ∈ deps)); [exact IH|].
        rewrite elem_of_cons. tauto.
Qed.

Lemma depDiff_fold_removed (deps : list string) :
  forall (A : list string) (R : gset string) (x : string),
    x ∈ snd (fold_left depDiff_step deps (A, R)) <-> x ∈ R /\ x ∉ deps.
Proof.
  induction deps as [|d deps IH]; intros A R x; cbn [fold_left].
  - cbn [snd]. split; [|tauto]. intros Hx. split; [exact Hx|].
    apply not_elem_of_nil.
  - unfold depDiff_step at 2. cbn [fst snd].
    destruct (bool_decide (d ∈ R)) eqn:Hd; rewrite IH.
    + rewrite elem_of_difference, elem_of_singleton, not_elem_of_cons. tauto.
    + apply bool_decide_eq_false_1 in Hd. rewrite not_elem_of_cons.
      split; [|tauto]. intros [Hx Hn]. repeat split; auto. congruence.
Qed.

Lemma depDiff_fold_sublist (deps : list string) :
  forall (A : list string) (R : gset string),
    exists A',
      fst (fold_left depDiff_step deps (A, R)) = A ++ A' /\ sublist A' deps.
Proof.
  induction deps as [|d deps IH]; intros A R; cbn [fold_left].
  - exists []. split; [now rewrite app_nil_r | constructor].
  - unfold depDiff_step at 2. cbn [fst snd].
    destruct (bool_decide (d ∈ R)).
    + destruct (IH A (R ∖ {[d]})) as (A' & -> & Hsub).
      exists A'. split; [reflexivity | now apply sublist_cons].
    + destruct (IH (A ++ [d]) R) as (A' & -> & Hsub).
      exists (d :: A'). split; [now rewrite <- app_assoc | now apply sublist_skip].
Qed.

(** X8.  The diff that [GetDepChanges] returns when a dependency list is
    stored.  [Removed] holds, once each, the stored identifiers that the
    manifest does not name.  [Added] holds the identifiers of the
    manifest in their order, less one occurrence of each identifier
    that is stored: an identifier not stored is added as often as it is
    named, a stored one as often as it is named beyond the first. *)
Theorem GetDepChanges_diff `{Platform} (m : Manager) (d : disk)
    (p : ProgInfo) (deps : list string) :
  fst (fst (GetProgInfo m d)) = Some p ->
  Deps p <> [] ->
  fst (readDeps m (Runtime p) d) = Ok deps ->
  exists dc,
    fst (GetDepChanges m d) = Ok dc /\
    (forall x, x ∈ Removed dc <-> x ∈ Deps p /\ x ∉ deps) /\
    NoDup (Removed dc) /\
    sublist (Added dc) deps /\
    (forall x,
        count_occ string_dec (Added dc) x
        = count_occ string_dec deps x
          - (if bool_decide (x ∈ Deps p) then 1 else 0)).
Proof.
  intros Hp Hne Hdeps. exists (depDiff (Deps p) deps).
  split; [|split; [|split; [|split]]].
  - unfold GetDepChanges, bind.
    pose proof (readonly_GetProgInfo m d) as H1.
    destruct (GetProgInfo m d) as [pe d1]. simpl in *. subst d1.
    rewrite Hp. destruct (Deps p) as [|x l] eqn:E; [done|]. cbn [length Nat.eqb].
    pose proof (readonly_readDeps m (Runtime p) d) as H2.
    destruct (readDeps m (Runtime p) d) as [ds d2]. simpl in *. subst d2 ds.
    reflexivity.
  - intros x. unfold depDiff. cbn [Removed].
    rewrite elem_of_elements, depDiff_fold_removed, elem_of_list_to_set.
    reflexivity.
  - unfold depDiff. cbn [Removed]. apply NoDup_elements.
  - unfold depDiff. cbn [Added].
    destruct (depDiff_fold_sublist deps [] (list_to_set (Deps p)))
      as (A' & -> & Hsub). exact Hsub.
  - intros x. unfold depDiff. cbn [Added].
    pose proof (depDiff_fold_count deps [] (list_to_set (Deps p)) x) as Hc.
    cbn [count_occ] in Hc.
    destruct (bool_decide (x ∈ Deps p)) eqn:Hin.
    + apply bool_decide_eq_true_1 in Hin.
      destruct (decide (x ∈ deps)) as [Hd|Hd].
      * rewrite bool_decide_eq_true_2 in Hc
          by (split; [now apply elem_of_list_to_set | exact Hd]). lia.
      * rewrite bool_decide_eq_false_2 in Hc by tauto.
        assert (count_occ string_dec deps x = 0)
          by (apply count_occ_not_In; now rewrite <- list_elem_of_In).
        lia.
    + apply bool_decide_eq_false_1 in Hin.
      rewrite bool_decide_eq_false_2 in Hc
        by (intros [Hx _]; now apply elem_of_list_to_set in Hx).
      lia.
Qed.

Lemma GetDepChanges_diff_witness :
  exists dc,
    fst (@GetDepChanges example_platform Scenario.app
           (@Scenario.repeated_dep example_platform)) = Ok dc /\
    (forall x, x ∈ Removed dc <-> x ∈ ["flask"] /\ x ∉ ["flask"; "flask"]) /\
    NoDup (Removed dc) /\
    sublist (Added dc) ["flask"; "flask"] /\
    (forall x,
        count_occ string_dec (Added dc) x
        = count_occ string_dec ["flask"; "flask"] x
          - (if bool_decide (x ∈ ["flask"]) then 1 else 0)).
Proof.
  apply (@GetDepChanges_diff example_platform Scenario.app
           (@Scenario.repeated_dep example_platform)
           (mkProgInfo Python ["flask"]) ["flask"; "flask"]).
  - vm_compute. reflexivity.
  - discriminate.
  - vm_compute. reflexivity.
Defined.

(** ** What [readDeps] returns *)

(** X9.  For the Node runtime [readDeps] never returns an identifier:
    when it returns a list at all (no manifest, a manifest that is
    [null], or one without a [dependencies] member), the list is
    empty. *)
Theorem readDeps_node_never_lists `{Platform} (m : Manager) (d : disk)
    (l : list string) :
  fst (readDeps m Node d) = Ok l -> l = [].
Proof.
  unfold readDeps, readFile, bind.
  destruct (os_read (depFiles Node) d) as [[c|e] d']; cbn [fst].
  - change (String.eqb Node Python) with false.
    change (String.eqb Node Node) with true. cbn [fst ret].
    apply nodeDeps_never_lists.
  - destruct (bool_decide (e = ErrNotExist)); cbn [fst ret];
      [now intros [= <-] | discriminate].
Qed.

Lemma readDeps_node_never_lists_witness :
  fst (@readDeps example_platform Scenario.app Node Scenario.project)
  = Ok [] /\ ([] : list string) = [].
Proof.
  split; [vm_compute; reflexivity|].
  apply (@readDeps_node_never_lists example_platform Scenario.app
           Scenario.project []).
  vm_compute. reflexivity.
Defined.

(** X10.  For a runtime that is neither [python] nor [node], [readDeps]
    returns the empty list and no error: [depFiles] has no name for it,
    opening the empty name fails as a missing file, and the case that
    would report an unsupported runtime is never reached. *)
Theorem readDeps_unknown_runtime `{Platform} (m : Manager) (d : disk)
    (runtime : string) :
  runtime <> Python -> runtime <> Node ->
  readDeps m runtime d = (Ok [], d).
Proof.
  intros HP HN. unfold readDeps, readFile, bind, depFiles.
  destruct (String.eqb_spec runtime Python); [contradiction|].
  destruct (String.eqb_spec runtime Node); [contradiction|].
  now rewrite os_read_empty.
Qed.

Lemma readDeps_unknown_runtime_witness :
  @readDeps example_platform Scenario.app "ruby" Scenario.project
  = (Ok [], Scenario.project).
Proof.
  apply (@readDeps_unknown_runtime example_platform Scenario.app
           Scenario.project "ruby"); discriminate.
Defined.

(** A text that ends in the separator has the empty string as its last
    field, after at least one other. *)
Lemma SplitOn_trailing (sep : ascii) (s : string) :
  exists l, SplitOn sep (s ++ String sep "") = l ++ [""] /\ l <> [].
Proof.
  induction s as [|c s (l & IH & Hl)].
  - exists [""]. split; [|discriminate].
    rewrite string_app_nil. cbn [SplitOn]. now rewrite Ascii.eqb_refl.
  - rewrite string_app_cons. cbn [SplitOn]. rewrite IH.
    destruct (Ascii.eqb c sep).
    + exists ("" :: l). split; [reflexivity | discriminate].
    + destruct l as [|f l']; [done|].
      exists (String c f :: l'). split; [reflexivity | discriminate].
Qed.

(** No field of a text cut at a separator holds the separator. *)
Lemma SplitOn_char_free (sep : ascii) (s : string) :
  Forall (fun f => char_free sep f = true) (SplitOn sep s).
Proof.
  induction s as [|c s IH]; [repeat constructor|]. cbn [SplitOn].
  destruct (Ascii.eqb c sep) eqn:Hc; [now constructor|].
  destruct (SplitOn sep s) as [|f fs]; [repeat constructor; cbn; now rewrite Hc|].
  inversion IH as [|? ? Hf Hfs]; subst. constructor; [|exact Hfs].
  cbn [char_free]. now rewrite Hc, Hf.
Qed.

Lemma SplitOn_field (sep : ascii) (f : string) :
  char_free sep f = true -> SplitOn sep f = [f].
Proof.
  induction f as [|c f IH]; [reflexivity|]. cbn [char_free SplitOn].
  intros [Hc Hf]%andb_prop. apply negb_true_iff in Hc.
  now rewrite Hc, (IH Hf).
Qed.

(** Fields without separator, joined by it and cut again, are the
    fields: a text has one list of fields. *)
Lemma SplitOn_concat (sep : ascii) (l : list string) :
  l <> [] -> Forall (fun f => char_free sep f = true) l ->
  SplitOn sep (String.concat (String sep "") l) = l.
Proof.
  induction l as [|f l IH]; [done|]. intros _ Hall.
  inversion Hall as [|? ? Hf Hl]; subst.
  destruct l as [|g l]; [now apply SplitOn_field|].
  change (String.concat (String sep "") (f :: g :: l))
    with (f ++ String sep (String.concat (String sep "") (g :: l)))%string.
  rewrite SplitOn_app_sep, (SplitOn_field sep f Hf), IH by done.
  reflexivity.
Qed.

(** X11.  For the Python runtime, with a manifest that can be read,
    [readDeps] returns its lines: no identifier holds a line feed, and
    joined by line feeds they are the text of the manifest; no other
    list is so.  The list is never empty: an empty manifest gives the
    one identifier that is the empty string, and a manifest that ends
    in a line feed gives the empty string as its last identifier. *)
Theorem readDeps_python_lines `{Platform} (m : Manager) (d : disk)
    (contents : list byte) :
  fst (readFile m "requirements.txt" d) = Ok contents ->
  exists l,
    fst (readDeps m Python d) = Ok l /\
    String.concat (String "010" "") l = string_of_bytes contents /\
    Forall (fun s => char_free "010" s = true) l /\
    l <> [] /\
    (forall l',
        l' <> [] -> Forall (fun s => char_free "010" s = true) l' ->
        String.concat (String "010" "") l' = string_of_bytes contents ->
        l' = l) /\
    (string_of_bytes contents = "" -> l = [""]) /\
    (forall s,
        string_of_bytes contents = (s ++ String "010" "")%string ->
        last l = Some "").
Proof.
  intros Hread. exists (SplitOn "010" (string_of_bytes contents)).
  split; [|split; [apply concat_SplitOn|]].
  - unfold readDeps, bind. change (depFiles Python) with "requirements.txt".
    pose proof (readonly_readFile m "requirements.txt" d) as Hro.
    destruct (readFile m "requirements.txt" d) as [r d']. simpl in *.
    now subst.
  - split; [apply SplitOn_char_free|]. split; [apply SplitOn_not_nil|].
    split; [|split].
    + intros l' Hne Hfree <-. symmetry. now apply SplitOn_concat.
    + now intros ->.
    + intros s ->.
      destruct (SplitOn_trailing "010" s) as (l & -> & _). apply last_snoc.
Qed.

Lemma readDeps_python_lines_witness :
  let text :=
    string_of_bytes
      (Scenario.bytes (String.concat (String "010" "") ["flask"; "flask"])) in
  exists l,
    fst (@readDeps example_platform Scenario.app Python
           (@Scenario.repeated_dep example_platform)) = Ok l /\
    String.concat (String "010" "") l = text /\
    Forall (fun s => char_free "010" s = true) l /\
    l <> [] /\
    (forall l',
        l' <> [] -> Forall (fun s => char_free "010" s = true) l' ->
        String.concat (String "010" "") l' = text ->
        l' = l) /\
    (text = "" -> l = [""]) /\
    (forall s, text = (s ++ String "010" "")%string -> last l = Some "").
Proof.
  apply (@readDeps_python_lines example_platform Scenario.app
           (@Scenario.repeated_dep example_platform)).
  vm_compute. reflexivity.
Defined.

(** ** What [GetRuntime] looks at *)

Lemma entryRuntimes_values path n :
  Forall (fun r => r = Python \/ r = Node) (entryRuntimes path n).
Proof.
  revert path. induction n as [name | name l cs IH] using node_rect';
    intros path; simpl.
  - unfold entryPoints.
    destruct (String.eqb _ "main.py"); [repeat constructor; now left|].
    destruct (String.eqb _ "index.js"); repeat constructor; now right.
  - destruct l; [|constructor].
    induction IH as [|c cs Hc _ IHcs]; simpl; [constructor|].
    apply Forall_app; split; [apply Hc | exact IHcs].
Qed.

(** X12.  What [GetRuntime] returns is one of four: one of the two
    runtimes, the error of conflicting entrypoint files, or the error
    of no supported runtime at its root.  No error of the file system
    is among them (a directory that does not list is passed over), and
    the call writes nothing. *)
Theorem GetRuntime_outcomes (m : Manager) (d : disk) :
  (forall r, fst (GetRuntime m d) = Ok r -> r = Python \/ r = Node) /\
  (forall e,
      fst (GetRuntime m d) = Err e ->
      (e = conflicting \/ e = unsupported (rootDir m)) /\
      e <> ErrNotExist /\ e <> ErrPermission) /\
  snd (GetRuntime m d) = d.
Proof.
  split; [|split; [|apply readonly_GetRuntime]].
  - rewrite GetRuntime_cases.
    pose proof (entryRuntimes_values (rootDir m) (tree d)) as Hv.
    destruct (entryRuntimes (rootDir m) (tree d)) as [|r [|r' rs]];
      [discriminate| |discriminate].
    intros r0 [= <-]. now inversion Hv.
  - rewrite GetRuntime_cases.
    destruct (entryRuntimes (rootDir m) (tree d)) as [|r [|r' rs]];
      [|discriminate|]; intros e [= <-];
      (split; [auto | split; discriminate]).
Qed.

Lemma entryRuntimes_child dir n :
  sep_free (node_name n) = true -> names_ok n = true ->
  entryRuntimes (Join dir (node_name n)) n = omap entryPoints (leaf_names n).
Proof.
  revert dir. induction n as [name | name l cs IH] using node_rect';
    intros dir Hname Hok.
  - simpl in *. rewrite (Split_Join_snd dir name Hname).
    now destruct (entryPoints name).
  - cbn [entryRuntimes leaf_names]. destruct l; [|reflexivity].
    simpl in Hok. pose proof (proj1 (List.forallb_forall _ _) Hok) as Hok'.
    clear Hok Hname.
    generalize (Join dir (node_name (Dir name true cs))). intros path.
    induction IH as [|c cs Hc _ IHcs]; [reflexivity|].
    cbn [flat_map]. rewrite omap_app.
    destruct (andb_prop _ _ (Hok' c (or_introl eq_refl))) as [Hn Hc'].
    rewrite (Hc path Hn Hc'). f_equal.
    apply IHcs. intros x Hx. apply Hok'. now right.
Qed.

(** X13.  With a directory at the root, [GetRuntime] is decided by the
    names of the files in the directories that list, and by nothing
    else: not by the names of the directories, so an entrypoint file
    below a hidden directory counts as any other, and not by the
    contents of any file. *)
Theorem GetRuntime_by_file_names (m : Manager) (d : disk) :
  names_ok (tree d) = true ->
  IsDir (tree d) = true ->
  fst (GetRuntime m d)
  = match omap entryPoints (leaf_names (tree d)) with
    | [] => Err (unsupported (rootDir m))
    | [r] => Ok r
    | _ :: _ :: _ => Err conflicting
    end.
Proof.
  intros Hok Hdir. rewrite GetRuntime_cases.
  destruct (tree d) as [name | name l cs]; [discriminate|].
  cbn [entryRuntimes leaf_names]. destruct l; [|reflexivity].
  simpl in Hok. pose proof (proj1 (List.forallb_forall _ _) Hok) as Hok'.
  assert (Heq : flat_map (fun c => entryRuntimes (Join (rootDir m) (node_name c)) c) cs
                = omap entryPoints (flat_map leaf_names cs)).
  { clear Hok Hdir. induction cs as [|c cs IHcs]; [reflexivity|].
    cbn [flat_map]. rewrite omap_app.
    destruct (andb_prop _ _ (Hok' c (or_introl eq_refl))) as [Hn Hc'].
    rewrite (entryRuntimes_child _ c Hn Hc'). f_equal.
    apply IHcs. intros x Hx. apply Hok'. now right. }
  now rewrite Heq.
Qed.

Lemma GetRuntime_by_file_names_witness :
  fst (GetRuntime Scenario.app Scenario.hidden_entrypoint) = Err conflicting /\
  leaf_names (tree Scenario.hidden_entrypoint) = ["index.js"; "main.py"].
Proof.
  split; [|reflexivity].
  rewrite (GetRuntime_by_file_names Scenario.app Scenario.hidden_entrypoint);
    reflexivity.
Defined.

(** ** The program info file and the state file *)

Lemma progInfoPath_HasPrefix root :
  root <> "" ->
  HasPrefix (progInfoPath (NewManager root)) "/" = HasPrefix root "/".
Proof.
  intros Hne.
  change (progInfoPath (NewManager root))
    with (Join (Join root detaDir) progInfoFile).
  rewrite !HasPrefix_slash_Join; auto. unfold Join. destruct root; discriminate.
Qed.

Lemma progInfoPath_under_hidden root :
  under_hidden root (progInfoPath (NewManager root)) = true.
Proof.
  unfold under_hidden.
  change (progInfoPath (NewManager root))
    with (Join (Join root detaDir) progInfoFile).
  rewrite (Join_root root detaDir), Join_below by discriminate.
  rewrite components_below; [|discriminate|repeat constructor].
  simpl. apply orb_true_r.
Qed.

(** The two files of a manager are two files. *)
Lemma statePath_not_progInfoPath root (d : disk) :
  root <> "" ->
  abspath d (statePath (NewManager root))
  <> abspath d (progInfoPath (NewManager root)).
Proof.
  intros Hne Habs. apply abspath_inj in Habs.
  - change (Join (Join root detaDir) stateFile
            = Join (Join root detaDir) progInfoFile) in Habs.
    unfold Join in Habs. do 2 apply String.app_inj in Habs. discriminate.
  - now rewrite statePath_HasPrefix, progInfoPath_HasPrefix.
Qed.

(** X14.  [StoreProgInfo], when it succeeds, changes the program info
    file and nothing else, and [GetProgInfo] then returns the record
    that was stored and no error. *)
Theorem StoreProgInfo_GetProgInfo `{Platform} (m : Manager) (p : ProgInfo)
    (d : disk) :
  fst (StoreProgInfo m p d) = None ->
  fst (GetProgInfo m (snd (StoreProgInfo m p d))) = (Some p, None) /\
  cwd (snd (StoreProgInfo m p d)) = cwd d /\
  tree (snd (StoreProgInfo m p d)) = tree d /\
  (forall key,
      key <> abspath d (progInfoPath m) ->
      files (snd (StoreProgInfo m p d)) !! key = files d !! key).
Proof.
  unfold StoreProgInfo. intros Hw.
  destruct (WriteFile_ok _ _ _ Hw) as [Hne ->]. cbn [cwd tree files].
  split; [|repeat split].
  - rewrite (GetProgInfo_data m _ p Hne); [reflexivity|].
    unfold abspath at 1. cbn [cwd files]. apply lookup_insert_eq.
  - intros key Hk. now rewrite lookup_insert_ne by congruence.
Qed.

Lemma StoreProgInfo_GetProgInfo_witness :
  let P := example_platform in
  let p := mkProgInfo Python ["flask"; "requests"] in
  fst (@GetProgInfo P Scenario.app
         (snd (@StoreProgInfo P Scenario.app p Scenario.project)))
  = (Some p, None).
Proof.
  apply (@StoreProgInfo_GetProgInfo example_platform Scenario.app
           (mkProgInfo Python ["flask"; "requests"]) Scenario.project).
  vm_compute. reflexivity.
Defined.

(** The disk after [storeState]: as before, or with a new state file. *)
Lemma storeState_disk `{Platform} (m : Manager) (d : disk) :
  snd (storeState m d) = d \/
  exists sm,
    snd (storeState m d)
    = mkDisk (cwd d) (tree d)
        (<[abspath d (statePath m) := Data (marshalState sm)]> (files d)).
Proof.
  destruct (fst (storeState m d)) as [e|] eqn:Hs.
  - left. revert Hs. unfold storeState, bind.
    pose proof (readonly_Walk (storeState_fn m) (rootDir m) ∅
                  (readonly_storeState_fn m) d) as Hro.
    destruct (Walk (rootDir m) (storeState_fn m) ∅ d) as [[sm e'] d'].
    simpl in Hro. subst d'. destruct e' as [e'|]; cbn [snd fst]; [reflexivity|].
    intros Hw. apply (WriteFile_cases (statePath m) (marshalState sm) d).
    now rewrite Hw.
  - right. exists (snapshot m d). now destruct (storeState_ok m d Hs) as (_ & _ & ->).
Qed.

(** X15.  For a manager made by [NewManager], the two stores do not
    touch each other's file: after [StoreProgInfo], [getStoredState]
    returns what it returned before, and after [storeState],
    [GetProgInfo] returns what it returned before. *)
Theorem stores_are_independent `{Platform} (root : string) (p : ProgInfo)
    (d : disk) :
  root <> "" ->
  let m := NewManager root in
  fst (getStoredState m (snd (StoreProgInfo m p d)))
  = fst (getStoredState m d) /\
  fst (GetProgInfo m (snd (storeState m d))) = fst (GetProgInfo m d).
Proof.
  intros Hne m. split.
  - unfold StoreProgInfo.
    destruct (WriteFile_cases (progInfoPath m) (marshalProgInfo p) d)
      as [_ Hfail].
    destruct (fst (WriteFile (progInfoPath m) (marshalProgInfo p) d))
      as [e|] eqn:Hw.
    + now rewrite Hfail by discriminate.
    + destruct (WriteFile_ok _ _ _ Hw) as [_ ->].
      unfold getStoredState, readFile, bind.
      rewrite (os_read_pair (statePath m) d), (os_read_pair (statePath m) _).
      rewrite os_read_other by (now apply statePath_not_progInfoPath).
      now destruct (fst (os_read (statePath m) d)).
  - destruct (storeState_disk m d) as [Hd | [sm Hd]].
    + now rewrite Hd.
    + rewrite Hd. unfold GetProgInfo, readFile, bind.
      rewrite (os_read_pair (progInfoPath m) d),
        (os_read_pair (progInfoPath m) _).
      rewrite os_read_other
        by (intros Heq; now apply (statePath_not_progInfoPath root d Hne)).
      destruct (fst (os_read (progInfoPath m) d)) as [c|e]; cbn [fst].
      * now destruct (progInfoFromBytes c).
      * now destruct (bool_decide (e = ErrNotExist)).
Qed.

Lemma stores_are_independent_witness :
  let P := example_platform in
  let m := NewManager "/app" in
  let d := snd (@storeState P m Scenario.project) in
  fst (@getStoredState P m
         (snd (@StoreProgInfo P m (mkProgInfo Python ["flask"]) d)))
  = fst (@getStoredState P m d) /\
  fst (@GetProgInfo P m (snd (@storeState P m d))) = fst (@GetProgInfo P m d).
Proof.
  apply (@stores_are_independent example_platform "/app"
           (mkProgInfo Python ["flask"])
           (snd (@storeState example_platform (NewManager "/app")
                   Scenario.project))).
  discriminate.
Defined.

(** X16.  The state file and the program info file of a manager made by
    [NewManager] lie below the hidden directory of the root, so the
    walks never take them for files of the project: neither is a key of
    a stored snapshot, and neither is a key of [Changes]. *)
Theorem state_files_not_tracked `{Platform} (root : string) (d : disk) :
  names_ok (tree d) = true ->
  let m := NewManager root in
  (forall sm,
      fst (storeState m d) = None ->
      fst (getStoredState m (snd (storeState m d))) = Ok sm ->
      sm !! statePath m = None /\ sm !! progInfoPath m = None) /\
  (forall sc,
      fst (GetChanges m d) = Ok sc ->
      Changes sc !! statePath m = None /\
      Changes sc !! progInfoPath m = None).
Proof.
  intros Hok m. split.
  - intros sm Hs. rewrite (storeState_getStoredState m d Hs). intros [= <-].
    pose proof (snapshot_no_hidden_key m d Hok) as Hnh.
    split; apply Hnh;
      [apply statePath_under_hidden | apply progInfoPath_under_hidden].
  - intros sc Hsc.
    pose proof (GetChanges_no_hidden_key m d sc Hok Hsc) as Hnh.
    split; apply Hnh;
      [apply statePath_under_hidden | apply progInfoPath_under_hidden].
Qed.

Lemma state_files_not_tracked_witness :
  let P := example_platform in
  let m := NewManager "/app" in
  let d := mkDisk "/app"
             (Dir "app" true
                [ Dir ".deta" true [ File "progInfo"; File "state" ];
                  File "main.py" ])
             (list_to_map
                [ ("/app/.deta/progInfo",
                   Data (@marshalProgInfo P (mkProgInfo Python [])));
                  ("/app/.deta/state",
                   Data (@marshalState P ∅));
                  ("/app/main.py", Data (Scenario.bytes "print(1)")) ]) in
  (forall sm,
      fst (@storeState P m d) = None ->
      fst (@getStoredState P m (snd (@storeState P m d))) = Ok sm ->
      sm !! statePath m = None /\ sm !! progInfoPath m = None) /\
  (forall sc,
      fst (@GetChanges P m d) = Ok sc ->
      Changes sc !! statePath m = None /\
      Changes sc !! progInfoPath m = None).
Proof.
  apply (@state_files_not_tracked example_platform "/app").
  vm_compute. reflexivity.
Defined.

(** ** An empty program info *)

Lemma readDeps_no_runtime `{Platform} (m : Manager) (d : disk) :
  readDeps m "" d = (Ok [], d).
Proof.
  unfold readDeps, readFile, bind. change (depFiles "") with "".
  now rewrite os_read_empty.
Qed.

(** X17.  With a program info stored that has no dependency and no
    runtime, [GetDepChanges] asks [GetRuntime] and then does not look
    at its error: when no runtime is found it returns no added
    identifier, no removed one, and no error. *)
Theorem GetDepChanges_empty_info `{Platform} (m : Manager) (d : disk)
    (p : ProgInfo) (e : error) :
  fst (fst (GetProgInfo m d)) = Some p ->
  Deps p = [] ->
  Runtime p = "" ->
  fst (GetRuntime m d) = Err e ->
  fst (GetDepChanges m d) = Ok (mkDepChanges [] []).
Proof.
  intros Hp Hdeps Hrt Hr. unfold GetDepChanges, bind.
  pose proof (readonly_GetProgInfo m d) as H1.
  destruct (GetProgInfo m d) as [pe d1]. simpl in *. subst d1.
  rewrite Hp, Hdeps, Hrt. cbn [length Nat.eqb String.eqb].
  pose proof (readonly_GetRuntime m d) as H2.
  destruct (GetRuntime m d) as [rt d2]. simpl in *. subst d2 rt.
  cbn [ret]. now rewrite readDeps_no_runtime.
Qed.

Lemma GetDepChanges_empty_info_witness :
  fst (@GetDepChanges example_platform Scenario.app
         (@Scenario.no_entrypoint example_platform))
  = Ok (mkDepChanges [] []) /\
  fst (GetRuntime Scenario.app (@Scenario.no_entrypoint example_platform))
  = Err (unsupported "/app").
Proof.
  split; [|vm_compute; reflexivity].
  apply (@GetDepChanges_empty_info example_platform Scenario.app
           (@Scenario.no_entrypoint example_platform) (mkProgInfo "" [])
           (unsupported "/app")); vm_compute; reflexivity.
Defined.

(** ** The checksum *)

Lemma hex_digit_lower (n : nat) : is_lower_hex (hex_digit n) = true.
Proof. do 16 (destruct n as [|n]; [reflexivity|]). reflexivity. Qed.

Lemma hex_length (bs : list byte) : String.length (hex bs) = 2 * length bs.
Proof. induction bs as [|b bs IH]; simpl; [reflexivity | rewrite IH; lia]. Qed.

Lemma hex_lower (bs : list byte) :
  forallb is_lower_hex (list_ascii_of_string (hex bs)) = true.
Proof.
  induction bs as [|b bs IH]; [reflexivity|].
  cbn [hex list_ascii_of_string forallb].
  now rewrite !hex_digit_lower, IH.
Qed.

(** X18.  [calcChecksum] fails exactly when the file cannot be read, with
    the error of the read; otherwise it returns the digest of the
    contents as 64 digits of lower-case hexadecimal.  It writes
    nothing. *)
Theorem calcChecksum_format `{Platform} (m : Manager) (path : string)
    (d : disk) :
  (forall h,
      fst (calcChecksum m path d) = Ok h ->
      String.length h = 64 /\
      forallb is_lower_hex (list_ascii_of_string h) = true /\
      exists c, fst (readFile m path d) = Ok c /\ h = hex (Sum256 c)) /\
  (forall e,
      fst (calcChecksum m path d) = Err e <->
      fst (readFile m path d) = Err e) /\
  snd (calcChecksum m path d) = d.
Proof.
  split; [|split; [|apply readonly_calcChecksum]]; unfold calcChecksum, bind;
    destruct (readFile m path d) as [[c|e'] d']; cbn [fst ret].
  - intros h [= <-]. split; [|split; [apply hex_lower | now exists c]].
    rewrite hex_length, Sum256_size. reflexivity.
  - discriminate.
  - intros e. split; discriminate.
  - intros e. split; intros [= <-]; reflexivity.
Qed.

(** ** The Node runtime with dependencies stored *)

(** X19.  For the Node runtime with a dependency list stored, a result
    of [GetDepChanges] has nothing added and every stored identifier
    removed: [readDeps] has no identifier to set against the stored
    ones. *)
Theorem GetDepChanges_node_removes_all `{Platform} (m : Manager) (d : disk)
    (p : ProgInfo) (dc : DepChanges) :
  fst (fst (GetProgInfo m d)) = Some p ->
  Deps p <> [] ->
  Runtime p = Node ->
  fst (GetDepChanges m d) = Ok dc ->
  Added dc = [] /\
  (forall x, x ∈ Removed dc <-> x ∈ Deps p) /\
  NoDup (Removed dc).
Proof.
  intros Hp Hne Hrt. unfold GetDepChanges, bind.
  pose proof (readonly_GetProgInfo m d) as H1.
  destruct (GetProgInfo m d) as [pe d1]. simpl in *. subst d1.
  rewrite Hp, Hrt. destruct (Deps p) as [|x0 l0] eqn:E; [done|].
  cbn [length Nat.eqb].
  pose proof (nodeDeps_never_lists) as Hnever.
  unfold readDeps, readFile, bind.
  destruct (os_read (depFiles Node) d) as [[c|e] d2]; cbn [fst].
  - change (String.eqb Node Python) with false.
    change (String.eqb Node Node) with true. cbn [ret fst].
    destruct (nodeDeps c) as [l|e] eqn:Hn; [|discriminate].
    rewrite (Hnever c l Hn). intros [= <-].
    unfold depDiff. cbn [fold_left Added Removed fst snd].
    repeat split; [| |apply NoDup_elements]; intros Hx.
    + now apply elem_of_elements, elem_of_list_to_set in Hx.
    + now apply elem_of_elements, elem_of_list_to_set.
  - destruct (bool_decide (e = ErrNotExist)); cbn [ret fst]; [|discriminate].
    intros [= <-].
    unfold depDiff. cbn [fold_left Added Removed fst snd].
    repeat split; [| |apply NoDup_elements]; intros Hx.
    + now apply elem_of_elements, elem_of_list_to_set in Hx.
    + now apply elem_of_elements, elem_of_list_to_set.
Qed.

Lemma GetDepChanges_node_removes_all_witness :
  let P := example_platform in
  exists dc,
    fst (@GetDepChanges P Scenario.app (@Scenario.node_bare P)) = Ok dc /\
    Added dc = [] /\
    (forall x, x ∈ Removed dc <-> x ∈ ["flask@1.0"; "requests@2.0"]) /\
    NoDup (Removed dc).
Proof.
  eexists. split; [vm_compute; reflexivity|].
  apply (@GetDepChanges_node_removes_all example_platform Scenario.app
           (@Scenario.node_bare example_platform)
           (mkProgInfo Node ["flask@1.0"; "requests@2.0"]));
    solve [discriminate | vm_compute; reflexivity].
Defined.
